(** * wsdot-api-client: fetch-strategy selection and the endpoint factory

    A shallow embedding of
    - [src/shared/fetching/utils/selectFetchStrategy.ts]
      (environment detection and strategy selection), and
    - the API fetch factory ([createFetchFactory], [interpolateParams],
      [substituteParam], [getApiKeyParam], [buildUrl]),
    followed by the properties the specification states about them.

    Conventions of the embedding.
    - A JavaScript string is a [string]; [+:+] is concatenation.
    - A value that is [undefined] (or a global that does not exist) is [None].
    - A [throw new Error(msg)] is the completion [Throw] of the error
      with message [msg]; a normal return is [Normal v].
    - The parameter object [params] is given by [Object.entries(params)],
      the list of its (key, value) pairs in enumeration order.
    - Ambient state (globals, [process.env]) is an explicit argument. *)

From Stdlib Require Import ZArith Lia Ascii DecimalString.
From stdpp Require Import base option list strings gmap.

Local Open Scope Z_scope.

(** ** Built-in string operations used by the code *)

Module Js.

(** The double-quote character, which occurs in the error message. *)
Definition dquote : string := String (ascii_of_nat 34) EmptyString.

(** [s.slice(n)]: the string without its first [n] characters. *)
Fixpoint drop (n : nat) (s : string) : string :=
  match n, s with
  | O, _ => s
  | S _, EmptyString => EmptyString
  | S k, String _ rest => drop k rest
  end.

(** [s.slice(0, n)]: the first [n] characters. *)
Fixpoint take (n : nat) (s : string) : string :=
  match n, s with
  | O, _ => EmptyString
  | S _, EmptyString => EmptyString
  | S k, String c rest => String c (take k rest)
  end.

(** [s.indexOf(pat)]: offset of the first occurrence of [pat] in [s]. *)
Fixpoint indexOf (s pat : string) : option nat :=
  if String.prefix pat s then Some O
  else match s with
       | EmptyString => None
       | String _ rest => S <$> indexOf rest pat
       end.

(** [s.includes(pat)]. *)
Definition includes (s pat : string) : bool :=
  match indexOf s pat with
  | Some _ => true
  | None => false
  end.

(** [GetSubstitution] of ECMA-262 for a string pattern: there are no
    capture groups, so [$1]..[$99] and [$<] stand for themselves and only
    the four patterns below expand. [before] and [after] are the parts of
    the subject string around the match. *)
Fixpoint getSubstitution (matched before after template : string) : string :=
  match template with
  | EmptyString => EmptyString
  | String c rest =>
      let literal := String c (getSubstitution matched before after rest) in
      if Ascii.eqb c "$" then
        match rest with
        | EmptyString => literal
        | String d rest' =>
            let tail := getSubstitution matched before after rest' in
            if Ascii.eqb d "$" then String "$" tail
            else if Ascii.eqb d "`" then before +:+ tail
            else if Ascii.eqb d "&" then matched +:+ tail
            else if Ascii.eqb d "'" then after +:+ tail
            else literal
        end
      else literal
  end.

(** [s.replace(pat, replacement)] with a string pattern and a string
    replacement: only the first occurrence is replaced, and the
    replacement text goes through [getSubstitution]. *)
Definition replace (s pat replacement : string) : string :=
  match indexOf s pat with
  | None => s
  | Some pos =>
      let before := take pos s in
      let after := drop (pos + String.length pat) s in
      before +:+ getSubstitution pat before after replacement +:+ after
  end.

(** [parts.join(sep)]. *)
Fixpoint join (sep : string) (parts : list string) : string :=
  match parts with
  | [] => EmptyString
  | [p] => p
  | p :: rest => p +:+ sep +:+ join sep rest
  end.

(** [s.padStart(n, "0")]. *)
Definition padStart0 (n : nat) (s : string) : string :=
  String.concat EmptyString (replicate (n - String.length s) "0") +:+ s.

(** [String(n)] for an integer-valued number [n] (below 10^21 in
    magnitude, where JavaScript still prints plain decimal digits). *)
Definition String_of_number (n : Z) : string :=
  NilZero.string_of_int (Z.to_int n).

(** [String(b)] for a boolean. *)
Definition String_of_boolean (b : bool) : string :=
  if b then "true" else "false".

(** *** The regular expression [/\{[^}]+\}/g]

    [span_not_close s] splits [s] after its longest prefix free of the
    closing brace, which is what the greedy class [[^}]+] consumes. *)
Fixpoint span_not_close (s : string) : string * string :=
  match s with
  | EmptyString => (EmptyString, EmptyString)
  | String c rest =>
      if Ascii.eqb c "}" then (EmptyString, s)
      else let '(run, tail) := span_not_close rest in (String c run, tail)
  end.

(** One attempt of the pattern at the head of [s]: an opening brace, one
    or more characters other than the closing brace, a closing brace. *)
Definition match_here (s : string) : option string :=
  match s with
  | EmptyString => None
  | String c rest =>
      if Ascii.eqb c "{" then
        match span_not_close rest with
        | (String b body, String _ _) => Some ("{" +:+ String b body +:+ "}")
        | _ => None
        end
      else None
  end.

(** The scan of the [g] flag: matches are taken leftmost first and the
    scan resumes after each match; [skip] counts the characters of the
    last match that are still to be stepped over. *)
Fixpoint scan (skip : nat) (s : string) : list string :=
  match s with
  | EmptyString => []
  | String _ rest =>
      match skip with
      | S k => scan k rest
      | O =>
          match match_here s with
          | Some m => m :: scan (String.length m - 1) rest
          | None => scan O rest
          end
      end
  end.

(** [s.match(/\{[^}]+\}/g)]: [null] when nothing matches. *)
Definition match_placeholders (s : string) : option (list string) :=
  match scan O s with
  | [] => None
  | ms => Some ms
  end.

(** [x || dflt] for an optional string: [undefined] and the empty string
    are falsy. *)
Definition or_else (x : option string) (dflt : string) : string :=
  match x with
  | None => dflt
  | Some EmptyString => dflt
  | Some s => s
  end.

End Js.

(** ** Data model *)

(** A [Date], seen through the local calendar getters the formatter reads:
    [getFullYear()], [getMonth()] (January is 0) and [getDate()]. *)
Record JsDate : Type := mkDate {
  getFullYear : Z;
  getMonth : Z;
  getDate : Z
}.

(** A parameter value: a string, an (integer-valued) number, a boolean or
    a date. *)
Inductive JsValue : Type :=
| VString (s : string)
| VNumber (n : Z)
| VBoolean (b : bool)
| VDate (d : JsDate).

(** [Object.entries(params)]. *)
Definition Params : Type := list (string * JsValue).

(** An [Error] object; only its message is observable here. *)
Record Error : Type := mkError { message : string }.

(** Outcome of evaluating a call: a returned value or a thrown error. *)
Inductive Completion (A : Type) : Type :=
| Normal (a : A)
| Throw (e : Error).
Arguments Normal {A} a.
Arguments Throw {A} e.

Definition bind {A B : Type} (c : Completion A) (k : A -> Completion B)
  : Completion B :=
  match c with
  | Normal a => k a
  | Throw e => Throw e
  end.

(** [xs.reduce(f, init)] where the callback may throw: the first throw
    ends the reduction. *)
Fixpoint reduce {A B : Type} (f : A -> B -> Completion A) (xs : list B)
  (init : A) : Completion A :=
  match xs with
  | [] => Normal init
  | x :: rest => bind (f init x) (reduce f rest)
  end.

(** ** The parameter interpolator *)

Section Interpolator.

(** The date formatter is imported from the parsing module. *)
Variable jsDateToYyyyMmDd : JsDate -> string.

(** [value instanceof Date ? jsDateToYyyyMmDd(value) : String(value)] *)
Definition stringValue (value : JsValue) : string :=
  match value with
  | VDate d => jsDateToYyyyMmDd d
  | VString s => s
  | VNumber n => Js.String_of_number n
  | VBoolean b => Js.String_of_boolean b
  end.

(** The placeholder [{key}]. *)
Definition placeholder (key : string) : string := "{" +:+ key +:+ "}".

(** The message of the error thrown when [{key}] is not in [endpoint]. *)
Definition mismatchMessage (endpoint key : string) : string :=
  ("Parameter " +:+ Js.dquote +:+ key +:+ Js.dquote
     +:+ " was provided but placeholder "
     +:+ Js.dquote +:+ "{" +:+ key +:+ "}" +:+ Js.dquote
     +:+ " not found in endpoint template. ")
  +:+ ("Available placeholders: "
     +:+ Js.or_else (Js.join ", " <$> Js.match_placeholders endpoint) "none").

Definition substituteParam (endpoint : string) (entry : string * JsValue)
  : Completion string :=
  let '(key, value) := entry in
  if negb (Js.includes endpoint (placeholder key)) then
    Throw (mkError (mismatchMessage endpoint key))
  else
    Normal (Js.replace endpoint (placeholder key) (stringValue value)).

Definition interpolateParams (endpointTemplate : string)
  (params : option Params) : Completion string :=
  match params with
  | None => Normal endpointTemplate
  | Some entries =>
      if (length entries =? 0)%nat then Normal endpointTemplate
      else reduce substituteParam entries endpointTemplate
  end.

End Interpolator.

(** Modelled from the spec: [jsDateToYyyyMmDd] lives in the parsing module,
    which is not part of the sources at hand. The specification has it
    format a date as [YYYY-MM-DD], zero-padded, from the date's local
    calendar fields. *)
Definition jsDateToYyyyMmDd_spec (d : JsDate) : string :=
  Js.padStart0 4 (Js.String_of_number (getFullYear d)) +:+ "-"
  +:+ Js.padStart0 2 (Js.String_of_number (getMonth d + 1)) +:+ "-"
  +:+ Js.padStart0 2 (Js.String_of_number (getDate d)).

(** ** The URL builder *)

(** [configManager] of the configuration module: the base URL and the API
    key it hands out. *)
Record ConfigManager : Type := {
  getBaseUrl : string;
  getApiKey : string
}.

Definition getApiKeyParam (apiPath : string) : string :=
  let isWsf := Js.includes apiPath "/ferries/" in
  if isWsf then "apiaccesscode" else "AccessCode".

Definition buildUrl (configManager : ConfigManager) (apiPath endpoint : string)
  : string :=
  let baseUrl := getBaseUrl configManager in
  let apiKeyParam := getApiKeyParam apiPath in
  let separator := if Js.includes endpoint "?" then "&" else "?" in
  baseUrl +:+ apiPath +:+ endpoint +:+ separator +:+ apiKeyParam +:+ "="
    +:+ getApiKey configManager.

(** ** The fetch factory *)

(** A promise, described by the way it settles. *)
Inductive Promise (T : Type) : Type :=
| Fulfilled (v : T)
| Rejected (reason : Error).
Arguments Fulfilled {T} v.
Arguments Rejected {T} reason.

Section FetchFactory.

Variable jsDateToYyyyMmDd : JsDate -> string.
Variable configManager : ConfigManager.

(** [LoggingMode] comes from the logger module, [T] is the response type
    and [World] is whatever the transport acts upon (the network). *)
Variables LoggingMode T World : Type.

(** A call of the client returned by [createApiClient()]: it acts on the
    world and either returns a promise or throws. *)
Definition ApiClient : Type :=
  string -> option LoggingMode -> World -> Completion (Promise T) * World.

(** [createFetchFactory(apiPath)(endpointTemplate)(params, logMode)]. The
    returned closure is an ordinary (not [async]) arrow function: a throw
    inside it leaves the call as a throw, and the promise of [fetchFn] is
    handed back as it is. *)
Definition createFetchFactory (fetchFn : ApiClient) (apiPath : string)
  (endpointTemplate : string) (params : option Params)
  (logMode : option LoggingMode) (w : World)
  : Completion (Promise T) * World :=
  match interpolateParams jsDateToYyyyMmDd endpointTemplate params with
  | Throw e => (Throw e, w)
  | Normal endpoint =>
      let url := buildUrl configManager apiPath endpoint in
      fetchFn url logMode w
  end.

End FetchFactory.

(** ** Environment detection and strategy selection *)

Record Navigator : Type := { userAgent : option string }.

Record Window : Type := { navigator : option Navigator }.

Inductive Document : Type := TheDocument.

(** [process], with [process.env] as a finite map from variable names to
    their values; a variable that is not set is [undefined]. *)
Record Process : Type := { env : gmap string string }.

(** The ambient state the module looks at: each global is [None] when
    [typeof] it is ["undefined"]. *)
Record Globals : Type := {
  process : option Process;
  window : option Window;
  document : option Document
}.

(** The two transports of the strategies module. *)
Inductive FetchStrategy : Type := fetchJsonp | fetchNative.

Definition isWebEnvironment (g : Globals) : bool :=
  bool_decide (is_Some (window g)) && bool_decide (is_Some (document g)).

(** Truthiness of an optional string. *)
Definition truthy (x : option string) : bool :=
  match x with
  | None => false
  | Some EmptyString => false
  | Some _ => true
  end.

Definition isTestEnvironment (g : Globals) : bool :=
  if match process g with
     | Some p =>
         bool_decide (env p !! "NODE_ENV" = Some "test")
         || bool_decide (is_Some (env p !! "VITEST_WORKER_ID"))
     | None => false
     end
  then true
  else
    match window g with
    | Some w =>
        let ua := navigator w ≫= userAgent in
        if truthy ua then
          match ua with
          | Some userAgent =>
              Js.includes userAgent "jsdom" || Js.includes userAgent "happy-dom"
          | None => false
          end
        else false
    | None => false
    end.

(** The result is one of the string literals ["test"], ["web"],
    ["server"]. *)
Definition getEnvironmentType (g : Globals) : string :=
  if isTestEnvironment g then "test"
  else if isWebEnvironment g then "web"
  else "server".

(** The [switch (environment)] of [selectFetchStrategy]. *)
Definition strategyOfEnvironment (environment : string) : FetchStrategy :=
  if String.eqb environment "test" then fetchNative
  else if String.eqb environment "server" then fetchNative
  else if String.eqb environment "web" then fetchJsonp
  else fetchNative.

Definition selectFetchStrategy (g : Globals) : FetchStrategy :=
  let environment := getEnvironmentType g in
  if match process g with
     | Some p => bool_decide (env p !! "FORCE_JSONP" = Some "true")
     | None => false
     end
  then fetchJsonp
  else strategyOfEnvironment environment.

(** * The schedule API module

    The module binds the factory to one API path and exports one endpoint
    function per template. The type parameter of each [createFetch] call
    declares the parameters of the endpoint; it is kept here as data. *)

(** The types the parameter declarations use. *)
Inductive ParamType : Type := TDate | TNumber | TBoolean | TString.

(** One property of a parameter type, as in [routeId: number] or
    [onlyRemainingTimes?: boolean]. *)
Record ParamDecl : Type := {
  paramName : string;
  paramType : ParamType;
  optional : bool
}.

(** An exported endpoint function: its name, the template handed to
    [createFetch] and the declared parameters. *)
Record EndpointDecl : Type := {
  endpointName : string;
  endpointPath : string;
  endpointParams : list ParamDecl
}.

Definition required (name : string) (type : ParamType) : ParamDecl :=
  {| paramName := name; paramType := type; optional := false |}.

Definition optionally (name : string) (type : ParamType) : ParamDecl :=
  {| paramName := name; paramType := type; optional := true |}.

(** [createFetchFactory("/ferries/api/schedule/rest")]. *)
Definition scheduleApiPath : string := "/ferries/api/schedule/rest".

(** The two endpoints with an optional parameter. *)
Definition getScheduleTodayByRoute : EndpointDecl := {|
  endpointName := "getScheduleTodayByRoute";
  endpointPath := "/scheduletoday/{routeId}/{onlyRemainingTimes}";
  endpointParams :=
    [required "routeId" TNumber; optionally "onlyRemainingTimes" TBoolean]
|}.

Definition getScheduleTodayByTerminals : EndpointDecl := {|
  endpointName := "getScheduleTodayByTerminals";
  endpointPath :=
    "/scheduletoday/{departingTerminalId}/{arrivingTerminalId}/{onlyRemainingTimes}";
  endpointParams :=
    [required "departingTerminalId" TNumber;
     required "arrivingTerminalId" TNumber;
     optionally "onlyRemainingTimes" TBoolean]
|}.

(** The exports of the module, in source order. *)
Definition scheduleEndpoints : list EndpointDecl := [
  {| endpointName := "getCacheFlushDateSchedule";
     endpointPath := "/cacheflushdate"; endpointParams := [] |};
  {| endpointName := "getValidDateRange";
     endpointPath := "/validdaterange"; endpointParams := [] |};
  {| endpointName := "getTerminals";
     endpointPath := "/terminals/{tripDate}";
     endpointParams := [required "tripDate" TDate] |};
  {| endpointName := "getTerminalsAndMates";
     endpointPath := "/terminalsandmates/{tripDate}";
     endpointParams := [required "tripDate" TDate] |};
  {| endpointName := "getTerminalsAndMatesByRoute";
     endpointPath := "/terminalsandmatesbyroute/{tripDate}/{routeId}";
     endpointParams := [required "tripDate" TDate; required "routeId" TNumber] |};
  {| endpointName := "getTerminalMates";
     endpointPath := "/terminalmates/{tripDate}/{terminalId}";
     endpointParams :=
       [required "tripDate" TDate; required "terminalId" TNumber] |};
  {| endpointName := "getRoutes";
     endpointPath := "/routes/{tripDate}";
     endpointParams := [required "tripDate" TDate] |};
  {| endpointName := "getRoutesByTerminals";
     endpointPath := "/routes/{tripDate}/{departingTerminalId}/{arrivingTerminalId}";
     endpointParams :=
       [required "tripDate" TDate; required "departingTerminalId" TNumber;
        required "arrivingTerminalId" TNumber] |};
  {| endpointName := "getRoutesWithDisruptions";
     endpointPath := "/routeshavingservicedisruptions/{tripDate}";
     endpointParams := [required "tripDate" TDate] |};
  {| endpointName := "getRouteDetails";
     endpointPath := "/routedetails/{tripDate}";
     endpointParams := [required "tripDate" TDate] |};
  {| endpointName := "getRouteDetailsByTerminals";
     endpointPath := "/routedetails/{tripDate}/{departingTerminalId}/{arrivingTerminalId}";
     endpointParams :=
       [required "tripDate" TDate; required "departingTerminalId" TNumber;
        required "arrivingTerminalId" TNumber] |};
  {| endpointName := "getRouteDetailsByRoute";
     endpointPath := "/routedetails/{tripDate}/{routeId}";
     endpointParams := [required "tripDate" TDate; required "routeId" TNumber] |};
  {| endpointName := "getActiveSeasons";
     endpointPath := "/activeseasons"; endpointParams := [] |};
  {| endpointName := "getScheduledRoutes";
     endpointPath := "/schedroutes"; endpointParams := [] |};
  {| endpointName := "getScheduledRoutesBySeason";
     endpointPath := "/schedroutes/{scheduleId}";
     endpointParams := [required "scheduleId" TNumber] |};
  {| endpointName := "getSailings";
     endpointPath := "/sailings/{schedRouteId}";
     endpointParams := [required "schedRouteId" TNumber] |};
  {| endpointName := "getAllSailings";
     endpointPath := "/allsailings/{schedRouteId}";
     endpointParams := [required "schedRouteId" TNumber] |};
  {| endpointName := "getTimeAdjustments";
     endpointPath := "/timeadj"; endpointParams := [] |};
  {| endpointName := "getTimeAdjustmentsByRoute";
     endpointPath := "/timeadjbyroute/{routeId}";
     endpointParams := [required "routeId" TNumber] |};
  {| endpointName := "getTimeAdjustmentsBySchedRoute";
     endpointPath := "/timeadjbyschedroute/{schedRouteId}";
     endpointParams := [required "schedRouteId" TNumber] |};
  {| endpointName := "getScheduleByRoute";
     endpointPath := "/schedule/{tripDate}/{routeId}";
     endpointParams := [required "tripDate" TDate; required "routeId" TNumber] |};
  {| endpointName := "getScheduleByTerminals";
     endpointPath := "/schedule/{tripDate}/{departingTerminalId}/{arrivingTerminalId}";
     endpointParams :=
       [required "tripDate" TDate; required "departingTerminalId" TNumber;
        required "arrivingTerminalId" TNumber] |};
  getScheduleTodayByRoute;
  getScheduleTodayByTerminals;
  {| endpointName := "getAlerts";
     endpointPath := "/alerts"; endpointParams := [] |};
  {| endpointName := "getAlternativeFormats";
     endpointPath := "/alternativeformats/{subjectName}";
     endpointParams := [required "subjectName" TString] |}
].

(** [createFetch(template)] of the schedule module. *)
Definition scheduleEndpoint (jsDateToYyyyMmDd : JsDate -> string)
  (configManager : ConfigManager) (LoggingMode T World : Type)
  (fetchFn : ApiClient LoggingMode T World) (endpoint : EndpointDecl)
  : option Params -> option LoggingMode -> World
    -> Completion (Promise T) * World :=
  createFetchFactory jsDateToYyyyMmDd configManager LoggingMode T World
    fetchFn scheduleApiPath (endpointPath endpoint).

(** * Specification vocabulary

    The notions the specification speaks of, stated as propositions next
    to the boolean tests of the code, and the inputs used as examples. *)

(** ** Substrings *)

(** [pat] is a substring of [s]. *)
Definition contains (s pat : string) : Prop :=
  exists pre post, s = pre +:+ pat +:+ post.

(** [pre] is what stands before the first occurrence of [pat] in [s], and
    [post] what stands after it. *)
Definition firstOccurrence (s pre pat post : string) : Prop :=
  s = pre +:+ pat +:+ post
  /\ forall pre' post', s = pre' +:+ pat +:+ post' ->
       (String.length pre <= String.length pre')%nat.

(** [pat] occurs in [s] once, between [pre] and [post]. *)
Definition occursOnce (s pre pat post : string) : Prop :=
  s = pre +:+ pat +:+ post
  /\ forall pre' post', s = pre' +:+ pat +:+ post' -> pre' = pre.

(** ** Ambient signals *)

(** [process.env.NODE_ENV] is the string ["test"]. *)
Definition testMarker (g : Globals) : Prop :=
  exists p, process g = Some p /\ env p !! "NODE_ENV" = Some "test".

(** [process.env.VITEST_WORKER_ID] is present, whatever its value. *)
Definition workerIdPresent (g : Globals) : Prop :=
  exists p v, process g = Some p /\ env p !! "VITEST_WORKER_ID" = Some v.

(** A [window] exists and its user agent contains [jsdom] or
    [happy-dom]. *)
Definition testDomUserAgent (g : Globals) : Prop :=
  exists w nav ua,
    window g = Some w /\ navigator w = Some nav /\ userAgent nav = Some ua
    /\ (contains ua "jsdom" \/ contains ua "happy-dom").

(** One of the three signals of a test environment. *)
Definition testSignal (g : Globals) : Prop :=
  testMarker g \/ workerIdPresent g \/ testDomUserAgent g.

(** Both [window] and [document] exist. *)
Definition browserGlobals (g : Globals) : Prop :=
  is_Some (window g) /\ is_Some (document g).

(** [process.env.FORCE_JSONP] is the string ["true"]. *)
Definition forceJsonp (g : Globals) : Prop :=
  exists p, process g = Some p /\ env p !! "FORCE_JSONP" = Some "true".

(** The globals after [process.env[name] = value]; without a [process]
    there is nothing to set. *)
Definition setEnv (name value : string) (g : Globals) : Globals := {|
  process := (fun p => {| env := <[name := value]> (env p) |}) <$> process g;
  window := window g;
  document := document g
|}.

(** ** Placeholders and templates *)

(** The texts the pattern [/\{[^}]+\}/] matches: a non-empty body without
    closing brace, between braces. *)
Definition isPlaceholderText (m : string) : Prop :=
  exists body, m = "{" +:+ body +:+ "}" /\ body <> "" /\ ~ contains body "}".

(** A template written as literal text and named holes. *)
Inductive Segment : Type :=
| Literal (text : string)
| Hole (name : string).

(** The template text of a list of segments. *)
Fixpoint render (segments : list Segment) : string :=
  match segments with
  | [] => ""
  | Literal text :: rest => text +:+ render rest
  | Hole name :: rest => ("{" +:+ name +:+ "}") +:+ render rest
  end.

(** Its placeholders, in order. *)
Fixpoint holes (segments : list Segment) : list string :=
  match segments with
  | [] => []
  | Literal _ :: rest => holes rest
  | Hole name :: rest => ("{" +:+ name +:+ "}") :: holes rest
  end.

(** Literal text opens no brace; a hole has a name, which closes none. *)
Definition wellFormedSegment (segment : Segment) : Prop :=
  match segment with
  | Literal text => ~ contains text "{"
  | Hole name => name <> "" /\ ~ contains name "}"
  end.

(** The list the error message ends with. *)
Definition availablePlaceholders (endpoint : string) : string :=
  match Js.scan O endpoint with
  | [] => "none"
  | ms => Js.join ", " ms
  end.

(** ** Dates *)

(** The decimal digit of the units of [n]. *)
Definition digit (n : Z) : ascii :=
  ascii_of_nat (48 + Z.to_nat (n mod 10)).

(** The last four decimal digits of [n]. *)
Definition fourDigits (n : Z) : string :=
  String (digit (n / 1000)) (String (digit (n / 100))
    (String (digit (n / 10)) (String (digit n) ""))).

(** The last two decimal digits of [n]. *)
Definition twoDigits (n : Z) : string :=
  String (digit (n / 10)) (String (digit n) "").

(** A date of the common era with a year of at most four digits. *)
Definition fourDigitYearDate (d : JsDate) : Prop :=
  0 <= getFullYear d <= 9999 /\ 0 <= getMonth d <= 11 /\ 1 <= getDate d <= 31.

(** ** Plain templates and their filling *)

(** No brace in [s]. *)
Definition braceFree (s : string) : Prop :=
  ~ contains s "{" /\ ~ contains s "}".

(** Literal text without braces; a hole with a non-empty name without
    braces. *)
Definition plainSegment (segment : Segment) : Prop :=
  match segment with
  | Literal text => braceFree text
  | Hole name => name <> "" /\ braceFree name
  end.

(** A text that brings in neither a brace nor a dollar sign. *)
Definition plainText (text : string) : Prop :=
  braceFree text /\ ~ contains text "$".

(** A plain text without question mark. *)
Definition queryFreeText (text : string) : Prop :=
  plainText text /\ ~ contains text "?".

(** The names of the holes, in order. *)
Fixpoint holeNames (segments : list Segment) : list string :=
  match segments with
  | [] => []
  | Literal _ :: rest => holeNames rest
  | Hole name :: rest => name :: holeNames rest
  end.

(** A hole whose name has a value becomes that text. *)
Definition fillSegment (values : gmap string string) (segment : Segment)
  : Segment :=
  match segment with
  | Literal text => Literal text
  | Hole name =>
      match values !! name with
      | Some text => Literal text
      | None => Hole name
      end
  end.

Definition fill (values : gmap string string) (segments : list Segment)
  : list Segment :=
  fillSegment values <$> segments.

(** The parameter object as a map from keys to the texts of the values. *)
Definition paramTexts (jsDateToYyyyMmDd : JsDate -> string)
  (entries : Params) : gmap string string :=
  list_to_map (prod_map id (stringValue jsDateToYyyyMmDd) <$> entries).

(** Reading a template as segments: [acc] is the literal text, or the
    hole name when [inHole], read so far. *)
Fixpoint parseFrom (inHole : bool) (acc s : string) : list Segment :=
  match s with
  | EmptyString => if inHole then [Literal ("{" +:+ acc)] else [Literal acc]
  | String c rest =>
      if inHole then
        if Ascii.eqb c "}" then Hole acc :: parseFrom false "" rest
        else parseFrom true (acc +:+ String c "") rest
      else
        if Ascii.eqb c "{" then Literal acc :: parseFrom true "" rest
        else parseFrom false (acc +:+ String c "") rest
  end.

Definition parseTemplate (template : string) : list Segment :=
  parseFrom false "" template.

Definition braceFreeb (s : string) : bool :=
  negb (Js.includes s "{") && negb (Js.includes s "}").

Definition plainSegmentb (segment : Segment) : bool :=
  match segment with
  | Literal text => braceFreeb text
  | Hole name => negb (String.eqb name "") && braceFreeb name
  end.

Definition queryFreeb (segment : Segment) : bool :=
  match segment with
  | Literal text => negb (Js.includes text "?")
  | Hole name => negb (Js.includes name "?")
  end.

(** The declaration of an endpoint is in order: its template reads as
    plain segments without question mark, the holes are distinct, and their
    names are the declared parameter names, in the same order. *)
Definition wellDeclared (endpoint : EndpointDecl) : bool :=
  let segments := parseTemplate (endpointPath endpoint) in
  String.eqb (render segments) (endpointPath endpoint)
  && forallb plainSegmentb segments
  && forallb queryFreeb segments
  && bool_decide (NoDup (holeNames segments))
  && bool_decide (holeNames segments = paramName <$> endpointParams endpoint).

(** The text a segment is written with. *)
Definition segmentText (segment : Segment) : string :=
  match segment with
  | Literal text => text
  | Hole name => name
  end.

(** No question mark in the text of the segment. *)
Definition queryFreeSegment (segment : Segment) : Prop :=
  ~ contains (segmentText segment) "?".

(** Every character of [s] is one of [allowed]. *)
Definition charsIn (allowed : list ascii) (s : string) : Prop :=
  forall c : ascii, contains s (String c "") -> c ∈ allowed.

(** The characters of a decimal numeral. *)
Definition numericChars : list ascii :=
  ["0"; "1"; "2"; "3"; "4"; "5"; "6"; "7"; "8"; "9"; "-"]%char.

(** The characters of [true] and [false]. *)
Definition booleanChars : list ascii :=
  ["t"; "r"; "u"; "e"; "f"; "a"; "l"; "s"]%char.

(** ** Example inputs *)

(** A test runner with a headless DOM, and JSONP forced. *)
Definition forcedTestRunner : Globals := {|
  process := Some {| env := <["FORCE_JSONP" := "true"]> {["NODE_ENV" := "test"]} |};
  window := Some {| navigator := Some {| userAgent := Some "Mozilla/5.0 (linux) jsdom/22.1.0" |} |};
  document := Some TheDocument
|}.

(** A test worker: the worker id is set, to the empty string, and a DOM is
    present. *)
Definition testWorker : Globals := {|
  process := Some {| env := {["VITEST_WORKER_ID" := ""]} |};
  window := Some {| navigator := None |};
  document := Some TheDocument
|}.

(** A browser. *)
Definition browser : Globals := {|
  process := None;
  window := Some {| navigator := Some {| userAgent := Some "Mozilla/5.0 (X11; Linux x86_64)" |} |};
  document := Some TheDocument
|}.

(** A server runtime. *)
Definition server : Globals := {|
  process := Some {| env := {["NODE_ENV" := "production"]} |};
  window := None;
  document := None
|}.

(** The template of [getScheduleByRoute], as segments, and a parameter
    object for it. *)
Definition scheduleByRouteSegments : list Segment :=
  [Literal "/schedule/"; Hole "tripDate"; Literal "/"; Hole "routeId"].

Definition scheduleByRouteParams : Params :=
  [("tripDate", VDate (mkDate 2024 0 15)); ("routeId", VNumber 5)].

(** A template that names one hole twice. *)
Definition compareBefore : list Segment := [Literal "/compare/"].

Definition compareAfter : list Segment := [Literal "/"; Hole "id"].

(** A configuration. *)
Definition exampleConfig : ConfigManager := {|
  getBaseUrl := "https://www.wsdot.wa.gov";
  getApiKey := "KEY"
|}.

(** A client that records the URLs it is asked for. *)
Definition recordingClient : ApiClient unit unit (list string) :=
  fun url _ requested => (Normal (Fulfilled tt), url :: requested).

(** An endpoint function of the schedule API, made by the factory over
    the recording client. *)
Definition getRoutes (params : option Params) (requested : list string)
  : Completion (Promise unit) * list string :=
  createFetchFactory jsDateToYyyyMmDd_spec exampleConfig unit unit
    (list string) recordingClient "/ferries/api/schedule/rest"
    "/routes/{tripDate}" params None requested.

(** * Properties *)

(** ** Strings *)

#[local] Arguments String.append : simpl nomatch.

Lemma str_app_assoc (s1 s2 s3 : string) :
  (s1 +:+ s2) +:+ s3 = s1 +:+ s2 +:+ s3.
Proof. induction s1 as [|c s1 IH]; simpl; [reflexivity | by rewrite IH]. Qed.

Lemma prefix_app (p s : string) : String.prefix p (p +:+ s) = true.
Proof.
  induction p as [|c p IH]; simpl.
  - by destruct s.
  - destruct (ascii_dec c c) as [_|Hne]; [exact IH | by destruct Hne].
Qed.

Lemma prefix_inv (p s : string) :
  String.prefix p s = true -> exists post, s = p +:+ post.
Proof.
  revert s. induction p as [|c p IH]; intros s H.
  - by exists s.
  - destruct s as [|d s]; simpl in H; [discriminate|].
    destruct (ascii_dec c d) as [->|_]; [|discriminate].
    destruct (IH _ H) as [post ->]. by exists post.
Qed.

Lemma take_app_length (pre s : string) :
  Js.take (String.length pre) (pre +:+ s) = pre.
Proof.
  induction pre as [|c pre IH]; simpl; [by destruct s | by rewrite IH].
Qed.

Lemma drop_app_length (pre s : string) :
  Js.drop (String.length pre) (pre +:+ s) = s.
Proof. induction pre as [|c pre IH]; simpl; [reflexivity | exact IH]. Qed.

Lemma drop_add (n m : nat) (s : string) :
  Js.drop (n + m) s = Js.drop m (Js.drop n s).
Proof.
  revert s. induction n as [|n IH]; intros s; simpl; [reflexivity|].
  destruct s as [|c s]; [by destruct m | apply IH].
Qed.

Lemma indexOf_unfold (s pat : string) :
  Js.indexOf s pat =
  if String.prefix pat s then Some O
  else match s with
       | EmptyString => None
       | String _ rest => S <$> Js.indexOf rest pat
       end.
Proof. by destruct s. Qed.

(** [indexOf] finds an occurrence... *)
Lemma indexOf_Some (s pat : string) (n : nat) :
  Js.indexOf s pat = Some n ->
  exists pre post, s = pre +:+ pat +:+ post /\ String.length pre = n.
Proof.
  revert n. induction s as [|c s IH]; intros n H; rewrite indexOf_unfold in H.
  - destruct (String.prefix pat "") eqn:Hp; [|discriminate].
    injection H as <-. destruct (prefix_inv _ _ Hp) as [post ->].
    by exists "", post.
  - destruct (String.prefix pat (String c s)) eqn:Hp.
    + injection H as <-. destruct (prefix_inv _ _ Hp) as [post ->].
      by exists "", post.
    + destruct (Js.indexOf s pat) as [k|] eqn:Hk; [|discriminate].
      injection H as <-. destruct (IH k eq_refl) as (pre & post & -> & <-).
      by exists (String c pre), post.
Qed.

(** ... and the leftmost one. *)
Lemma indexOf_app (pre pat post : string) :
  exists n, Js.indexOf (pre +:+ pat +:+ post) pat = Some n
            /\ (n <= String.length pre)%nat.
Proof.
  induction pre as [|c pre IH].
  - exists O. split; [|simpl; lia].
    change ("" +:+ pat +:+ post) with (pat +:+ post).
    by rewrite indexOf_unfold, prefix_app.
  - destruct IH as (n & Hn & Hle).
    change (String c pre +:+ pat +:+ post)
      with (String c (pre +:+ pat +:+ post)).
    rewrite indexOf_unfold.
    destruct (String.prefix pat (String c (pre +:+ pat +:+ post))).
    + exists O. split; [reflexivity | lia].
    + rewrite Hn. exists (S n). split; [reflexivity | simpl; lia].
Qed.

Lemma includes_true_iff (s pat : string) :
  Js.includes s pat = true <-> contains s pat.
Proof.
  unfold Js.includes, contains. split.
  - destruct (Js.indexOf s pat) as [n|] eqn:E; [|discriminate]. intros _.
    destruct (indexOf_Some _ _ _ E) as (pre & post & -> & _). eauto.
  - intros (pre & post & ->).
    destruct (indexOf_app pre pat post) as (n & -> & _). reflexivity.
Qed.

Lemma includes_false_iff (s pat : string) :
  Js.includes s pat = false <-> ~ contains s pat.
Proof.
  rewrite <- includes_true_iff. by destruct (Js.includes s pat).
Qed.

(** ** Environment detection *)

Lemma truthy_includes (ua pat : string) :
  pat <> "" -> Js.includes ua pat = true -> truthy (Some ua) = true.
Proof.
  intros Hpat H. destruct ua as [|c ua]; [|reflexivity].
  apply includes_true_iff in H as (pre & post & E).
  destruct pre; [destruct pat; [by destruct Hpat | discriminate] | discriminate].
Qed.

(** The second half of [isTestEnvironment]: the goal is its test of the
    user agent implying the third signal. *)
Ltac by_user_agent g :=
  let w := fresh "w" in
  let nav := fresh "nav" in
  let ua := fresh "ua" in
  let H := fresh "H" in
  destruct (window g) as [w|]; [|discriminate];
  destruct (navigator w) as [nav|] eqn:?; [|discriminate]; simpl;
  destruct (userAgent nav) as [ua|] eqn:?; [|discriminate];
  destruct (truthy (Some ua)); [|discriminate];
  intros [H|H]%orb_true_iff; apply includes_true_iff in H;
  right; right; exists w, nav, ua; auto.

Lemma isTestEnvironment_iff (g : Globals) :
  isTestEnvironment g = true <-> testSignal g.
Proof.
  unfold isTestEnvironment, testSignal, testMarker, workerIdPresent,
    testDomUserAgent.
  split.
  - destruct (process g) as [p|] eqn:Hp.
    + destruct (bool_decide (env p !! "NODE_ENV" = Some "test")) eqn:H1.
      { apply bool_decide_eq_true in H1. intros _. left. eauto. }
      destruct (bool_decide (is_Some (env p !! "VITEST_WORKER_ID"))) eqn:H2.
      { apply bool_decide_eq_true in H2 as [v Hv]. intros _. right; left. eauto. }
      simpl. by_user_agent g.
    + by_user_agent g.
  - intros [(p & -> & Hp) | [(p & v & -> & Hp) | H]].
    + by rewrite bool_decide_eq_true_2.
    + rewrite (bool_decide_eq_true_2 (is_Some _)) by eauto.
      by rewrite orb_true_r.
    + destruct H as (w & nav & ua & -> & Hn & Hu & Hua).
      match goal with |- (if ?b then _ else _) = _ => destruct b end;
        [reflexivity|].
      rewrite Hn. simpl. rewrite Hu.
      assert (Js.includes ua "jsdom" || Js.includes ua "happy-dom" = true) as Hi.
      { apply orb_true_iff.
        destruct Hua as [Hua|Hua]; [left | right];
          by apply includes_true_iff. }
      assert (truthy (Some ua) = true) as ->; [|exact Hi].
      apply orb_true_iff in Hi as [Hi|Hi];
        (eapply truthy_includes; [|exact Hi]); discriminate.
Qed.

Lemma isWebEnvironment_iff (g : Globals) :
  isWebEnvironment g = true <-> browserGlobals g.
Proof.
  unfold isWebEnvironment, browserGlobals.
  rewrite andb_true_iff, !bool_decide_eq_true. reflexivity.
Qed.

(** C3. [getEnvironmentType] returns ["test"] when the test marker is
    ["test"], or the worker id is present (with any value), or a [window]
    exists whose user agent contains [jsdom] or [happy-dom]; otherwise
    ["web"] when both [window] and [document] exist; otherwise
    ["server"]. The test signals are looked at first. *)
Theorem getEnvironmentType_classifies (g : Globals) :
  (testSignal g -> getEnvironmentType g = "test")
  /\ (~ testSignal g -> browserGlobals g -> getEnvironmentType g = "web")
  /\ (~ testSignal g -> ~ browserGlobals g -> getEnvironmentType g = "server").
Proof.
  unfold getEnvironmentType.
  pose proof (isTestEnvironment_iff g) as Ht.
  pose proof (isWebEnvironment_iff g) as Hw.
  destruct (isTestEnvironment g), (isWebEnvironment g);
    repeat split; intros; try reflexivity; exfalso; intuition congruence.
Qed.

Lemma forceJsonp_iff (g : Globals) :
  match process g with
  | Some p => bool_decide (env p !! "FORCE_JSONP" = Some "true")
  | None => false
  end = true <-> forceJsonp g.
Proof.
  unfold forceJsonp. destruct (process g) as [p|].
  - rewrite bool_decide_eq_true. split; [eauto|].
    by intros (p' & [= <-] & H).
  - split; [discriminate | by intros (p & [=] & _)].
Qed.

(** C2. With [FORCE_JSONP] equal to ["true"], [selectFetchStrategy] returns
    the JSONP strategy whatever the environment is; otherwise it returns
    the strategy the [switch] gives for the environment type: native for
    ["test"] and ["server"], JSONP for ["web"], and native for any other
    value. *)
Theorem selectFetchStrategy_selects (g : Globals) :
  (forceJsonp g -> selectFetchStrategy g = fetchJsonp)
  /\ (~ forceJsonp g ->
      selectFetchStrategy g = strategyOfEnvironment (getEnvironmentType g)
      /\ (getEnvironmentType g = "test" -> selectFetchStrategy g = fetchNative)
      /\ (getEnvironmentType g = "server" -> selectFetchStrategy g = fetchNative)
      /\ (getEnvironmentType g = "web" -> selectFetchStrategy g = fetchJsonp))
  /\ (forall environment : string,
        environment <> "test" -> environment <> "server" ->
        environment <> "web" ->
        strategyOfEnvironment environment = fetchNative).
Proof.
  unfold selectFetchStrategy. pose proof (forceJsonp_iff g) as Hf.
  split; [|split].
  - intros H. apply Hf in H. by rewrite H.
  - intros H.
    match goal with |- context [if ?b then _ else _] => destruct b end;
      [by destruct H; apply Hf|].
    split; [reflexivity|]. by repeat split; intros ->.
  - intros e H1 H2 H3. unfold strategyOfEnvironment.
    apply String.eqb_neq in H1, H2, H3. by rewrite H1, H2, H3.
Qed.

(** ** The URL builder *)

(** C6. [buildUrl] returns base + apiPath + endpoint + separator +
    keyParam + "=" + key, where keyParam is [apiaccesscode] when the API
    path contains the ferries marker [/ferries/] and [AccessCode] otherwise,
    and the separator is [&] when the endpoint already contains [?] and
    [?] otherwise. *)
Theorem buildUrl_shape (configManager : ConfigManager)
  (apiPath endpoint : string) :
  exists keyParam separator : string,
    buildUrl configManager apiPath endpoint
    = getBaseUrl configManager +:+ apiPath +:+ endpoint +:+ separator
        +:+ keyParam +:+ "=" +:+ getApiKey configManager
    /\ keyParam = getApiKeyParam apiPath
    /\ (contains apiPath "/ferries/" -> keyParam = "apiaccesscode")
    /\ (~ contains apiPath "/ferries/" -> keyParam = "AccessCode")
    /\ (contains endpoint "?" -> separator = "&")
    /\ (~ contains endpoint "?" -> separator = "?").
Proof.
  exists (getApiKeyParam apiPath),
    (if Js.includes endpoint "?" then "&" else "?").
  split; [reflexivity|]. split; [reflexivity|]. unfold getApiKeyParam.
  repeat split.
  - intros H. apply includes_true_iff in H. by rewrite H.
  - intros H. apply includes_false_iff in H. by rewrite H.
  - intros H. apply includes_true_iff in H. by rewrite H.
  - intros H. apply includes_false_iff in H. by rewrite H.
Qed.

(** The two URLs the specification gives as examples. *)
Example buildUrl_ferries (configManager : ConfigManager) :
  buildUrl configManager "/ferries/api/schedule/rest" "/routes/2024-01-15"
  = getBaseUrl configManager
      +:+ "/ferries/api/schedule/rest/routes/2024-01-15?apiaccesscode="
      +:+ getApiKey configManager.
Proof. reflexivity. Qed.

Example buildUrl_other (configManager : ConfigManager) :
  buildUrl configManager "/api/other" "/x"
  = getBaseUrl configManager +:+ "/api/other/x?AccessCode="
      +:+ getApiKey configManager.
Proof. reflexivity. Qed.

(** ** The placeholder pattern *)

Lemma contains_char_cons (c d : ascii) (s : string) :
  contains (String c s) (String d "") <-> c = d \/ contains s (String d "").
Proof.
  unfold contains. split.
  - intros (pre & post & E). destruct pre as [|c' pre]; simpl in E.
    + left. by injection E.
    + right. exists pre, post. by injection E.
  - intros [->|(pre & post & ->)].
    + by exists "", s.
    + by exists (String c pre), post.
Qed.

Lemma not_contains_empty (d : ascii) : ~ contains "" (String d "").
Proof. intros (pre & post & E). by destruct pre. Qed.

Lemma span_not_close_spec (s run tail : string) :
  Js.span_not_close s = (run, tail) ->
  s = run +:+ tail /\ ~ contains run "}"
  /\ (tail = "" \/ exists rest, tail = String "}" rest).
Proof.
  revert run tail. induction s as [|c s IH]; intros run tail H; simpl in H.
  - injection H as <- <-. split; [reflexivity|].
    split; [apply not_contains_empty | by left].
  - destruct (Ascii.eqb c "}") eqn:Hc.
    + injection H as <- <-. apply Ascii.eqb_eq in Hc as ->.
      split; [reflexivity|]. split; [apply not_contains_empty | right; eauto].
    + destruct (Js.span_not_close s) as [run' tail'].
      injection H as <- <-. destruct (IH _ _ eq_refl) as (-> & Hrun & Htail).
      split; [reflexivity|]. split; [|exact Htail].
      intros [->|H]%contains_char_cons; [|by apply Hrun].
      by rewrite Ascii.eqb_refl in Hc.
Qed.

Lemma match_here_Some (s m : string) :
  Js.match_here s = Some m ->
  isPlaceholderText m /\ exists rest, s = m +:+ rest.
Proof.
  destruct s as [|c s]; [discriminate|]. unfold Js.match_here.
  destruct (Ascii.eqb c "{") eqn:Hc; [|discriminate].
  apply Ascii.eqb_eq in Hc as ->.
  destruct (Js.span_not_close s) as [run tail] eqn:Hs.
  destruct (span_not_close_spec _ _ _ Hs) as (-> & Hrun & Htail).
  destruct run as [|b body]; [discriminate|].
  destruct tail as [|d rest]; [discriminate|]. intros [= <-].
  destruct Htail as [|(rest' & [= -> ->])]; [discriminate|]. split.
  - exists (String b body). by repeat split.
  - exists rest'. simpl. f_equal. f_equal.
    by rewrite (str_app_assoc body "}" rest').
Qed.

Lemma contains_tail (c : ascii) (s pat : string) :
  contains s pat -> contains (String c s) pat.
Proof. intros (pre & post & ->). by exists (String c pre), post. Qed.

#[local] Arguments Js.match_here : simpl never.

(** Every text the scan reports has the placeholder shape and is a
    substring of the scanned string. *)
Lemma scan_sound (skip : nat) (s m : string) :
  m ∈ Js.scan skip s -> isPlaceholderText m /\ contains s m.
Proof.
  revert skip. induction s as [|c s IH]; intros skip H; simpl in H.
  - by apply elem_of_nil in H.
  - destruct skip as [|k].
    + destruct (Js.match_here (String c s)) as [m'|] eqn:Hm.
      * apply elem_of_cons in H as [->|H].
        -- destruct (match_here_Some _ _ Hm) as (Hp & rest & E).
           split; [exact Hp|]. exists "", rest. exact E.
        -- destruct (IH _ H). split; [done | by apply contains_tail].
      * destruct (IH _ H). split; [done | by apply contains_tail].
    + destruct (IH _ H). split; [done | by apply contains_tail].
Qed.

Lemma scan_skip (pre s : string) :
  Js.scan (String.length pre) (pre +:+ s) = Js.scan O s.
Proof. induction pre as [|c pre IH]; [reflexivity | exact IH]. Qed.

Lemma scan_literal (text s : string) :
  ~ contains text "{" -> Js.scan O (text +:+ s) = Js.scan O s.
Proof.
  induction text as [|c text IH]; intros H; [reflexivity|].
  assert (Ascii.eqb c "{" = false) as Hc.
  { apply Ascii.eqb_neq. intros ->. apply H, contains_char_cons. by left. }
  change (String c text +:+ s) with (String c (text +:+ s)).
  change (Js.scan O (String c (text +:+ s)))
    with (match Js.match_here (String c (text +:+ s)) with
          | Some m => m :: Js.scan (String.length m - 1) (text +:+ s)
          | None => Js.scan O (text +:+ s)
          end).
  unfold Js.match_here. rewrite Hc. apply IH.
  intros Hr. apply H, contains_char_cons. by right.
Qed.

Lemma span_not_close_app (name s : string) :
  ~ contains name "}" ->
  Js.span_not_close (name +:+ String "}" s) = (name, String "}" s).
Proof.
  induction name as [|c name IH]; intros H; [reflexivity|].
  assert (Ascii.eqb c "}" = false) as Hc.
  { apply Ascii.eqb_neq. intros ->. apply H, contains_char_cons. by left. }
  simpl. rewrite Hc, IH; [reflexivity|].
  intros Hr. apply H, contains_char_cons. by right.
Qed.

Lemma scan_hole (name s : string) :
  name <> "" -> ~ contains name "}" ->
  Js.scan O (("{" +:+ name +:+ "}") +:+ s)
  = ("{" +:+ name +:+ "}") :: Js.scan O s.
Proof.
  intros Hne Hc.
  assert (("{" +:+ name +:+ "}") +:+ s = String "{" (name +:+ String "}" s))
    as -> by (simpl; by rewrite str_app_assoc).
  change (Js.scan O (String "{" (name +:+ String "}" s)))
    with (match Js.match_here (String "{" (name +:+ String "}" s)) with
          | Some m =>
              m :: Js.scan (String.length m - 1) (name +:+ String "}" s)
          | None => Js.scan O (name +:+ String "}" s)
          end).
  assert (Js.match_here (String "{" (name +:+ String "}" s))
          = Some ("{" +:+ name +:+ "}")) as ->.
  { unfold Js.match_here. rewrite span_not_close_app by exact Hc.
    destruct name; [by destruct Hne | reflexivity]. }
  f_equal.
  assert (name +:+ String "}" s = (name +:+ "}") +:+ s) as ->
    by (by rewrite str_app_assoc).
  assert (String.length ("{" +:+ name +:+ "}") - 1
          = String.length (name +:+ "}"))%nat as -> by (simpl; lia).
  apply scan_skip.
Qed.

(** On a template of literal text and holes, the scan lists the holes,
    all of them and in order. *)
Lemma scan_render (segments : list Segment) :
  Forall wellFormedSegment segments ->
  Js.scan O (render segments) = holes segments.
Proof.
  induction 1 as [|[text|name] rest Hw _ IH]; [reflexivity| |]; simpl.
  - by rewrite scan_literal.
  - destruct Hw as [Hne Hc]. rewrite <- IH. by apply scan_hole.
Qed.

Lemma join_nonempty (sep m : string) (ms : list string) :
  m <> "" -> Js.join sep (m :: ms) <> "".
Proof.
  intros Hm. simpl. destruct ms; [exact Hm|].
  destruct m; [by destruct Hm | discriminate].
Qed.

Lemma or_else_join_scan (endpoint : string) :
  Js.or_else (Js.join ", " <$> Js.match_placeholders endpoint) "none"
  = availablePlaceholders endpoint.
Proof.
  unfold Js.match_placeholders, availablePlaceholders.
  pose proof (scan_sound O endpoint) as Hs.
  destruct (Js.scan O endpoint) as [|m ms]; [reflexivity|].
  change (Js.join ", " <$> Some (m :: ms)) with (Some (Js.join ", " (m :: ms))).
  assert (Js.join ", " (m :: ms) <> "") as Hne.
  { apply join_nonempty. destruct (Hs m) as [(body & -> & _) _];
      [apply elem_of_cons; by left | discriminate]. }
  unfold Js.or_else. destruct (Js.join ", " (m :: ms)); [by destruct Hne|].
  reflexivity.
Qed.

(** ** The parameter interpolator *)

Lemma substituteParam_unfold (jsDateToYyyyMmDd : JsDate -> string)
  (endpoint key : string) (value : JsValue) :
  substituteParam jsDateToYyyyMmDd endpoint (key, value)
  = if Js.includes endpoint (placeholder key)
    then Normal (Js.replace endpoint (placeholder key)
                   (stringValue jsDateToYyyyMmDd value))
    else Throw (mkError (mismatchMessage endpoint key)).
Proof.
  unfold substituteParam. by destruct (Js.includes endpoint (placeholder key)).
Qed.

Section InterpolatorFacts.

Variable jsDateToYyyyMmDd : JsDate -> string.

#[local] Abbreviation substituteParam := (substituteParam jsDateToYyyyMmDd).
#[local] Abbreviation interpolateParams := (interpolateParams jsDateToYyyyMmDd).
#[local] Abbreviation stringValue := (stringValue jsDateToYyyyMmDd).

(** C9. With an absent or an empty parameter map, [interpolateParams]
    returns the template unchanged, for every template. *)
Theorem interpolateParams_no_params (template : string) :
  interpolateParams template None = Normal template
  /\ interpolateParams template (Some []) = Normal template.
Proof. split; reflexivity. Qed.

Lemma interpolateParams_reduce (template : string) (entries : Params) :
  interpolateParams template (Some entries)
  = reduce substituteParam entries template.
Proof. by destruct entries. Qed.

Lemma reduce_app {A B : Type} (f : A -> B -> Completion A)
  (xs ys : list B) (init : A) :
  reduce f (xs ++ ys) init = bind (reduce f xs init) (reduce f ys).
Proof.
  revert init. induction xs as [|x xs IH]; intros init; simpl; [reflexivity|].
  destruct (f init x); simpl; [apply IH | reflexivity].
Qed.

(** C10. The entries are folded, in order, over the partially substituted
    string: each entry is substituted into the result of the entries before
    it. With the template [/{a}/{b}], [a] bound to the text [{b}] and then
    [b] bound to [X], the value of [b] lands in the placeholder that the
    value of [a] brought in, and the [{b}] of the template itself stays. *)
Theorem interpolateParams_folds_partial_result :
  (forall (template : string) (entry : string * JsValue) (rest : Params),
      interpolateParams template (Some (entry :: rest))
      = bind (substituteParam template entry)
          (fun endpoint => interpolateParams endpoint (Some rest)))
  /\ substituteParam "/{a}/{b}" ("a", VString "{b}") = Normal "/{b}/{b}"
  /\ substituteParam "/{b}/{b}" ("b", VString "X") = Normal "/X/{b}"
  /\ interpolateParams "/{a}/{b}"
       (Some [("a", VString "{b}"); ("b", VString "X")])
     = Normal ("/" +:+ "X" +:+ "/{b}")
  /\ "/{a}/{b}" = "/" +:+ placeholder "a" +:+ "/{b}".
Proof.
  split; [|by repeat split].
  intros template entry rest. rewrite interpolateParams_reduce.
  change (reduce substituteParam (entry :: rest) template)
    with (bind (substituteParam template entry) (reduce substituteParam rest)).
  destruct (substituteParam template entry) as [endpoint|e]; [|reflexivity].
  symmetry. apply interpolateParams_reduce.
Qed.

Lemma substituteParam_Throw (endpoint key : string) (value : JsValue) :
  ~ contains endpoint (placeholder key) ->
  substituteParam endpoint (key, value)
  = Throw (mkError (mismatchMessage endpoint key)).
Proof.
  intros H. apply includes_false_iff in H.
  by rewrite substituteParam_unfold, H.
Qed.

Lemma substituteParam_Normal (endpoint key : string) (value : JsValue) :
  contains endpoint (placeholder key) ->
  substituteParam endpoint (key, value)
  = Normal (Js.replace endpoint (placeholder key) (stringValue value)).
Proof.
  intros H. apply includes_true_iff in H.
  by rewrite substituteParam_unfold, H.
Qed.

Lemma substituteParam_Throw_inv (endpoint : string)
  (entry : string * JsValue) (e : Error) :
  substituteParam endpoint entry = Throw e ->
  ~ contains endpoint (placeholder entry.1)
  /\ e = mkError (mismatchMessage endpoint entry.1).
Proof.
  destruct entry as [key value]. rewrite substituteParam_unfold. simpl.
  destruct (Js.includes endpoint (placeholder key)) eqn:H; [discriminate|].
  intros [= <-]. by apply includes_false_iff in H.
Qed.

Lemma reduce_Throw_inv {A B : Type} (f : A -> B -> Completion A)
  (xs : list B) (init : A) (e : Error) :
  reduce f xs init = Throw e ->
  exists done x rest acc,
    xs = done ++ x :: rest /\ reduce f done init = Normal acc
    /\ f acc x = Throw e.
Proof.
  revert init. induction xs as [|x xs IH]; intros init H; [discriminate|].
  simpl in H. destruct (f init x) as [a|e'] eqn:Hf; simpl in H.
  - destruct (IH _ H) as (done & y & rest & acc & -> & Hd & Hy).
    exists (x :: done), y, rest, acc. split; [reflexivity|].
    split; [|exact Hy]. simpl. by rewrite Hf.
  - injection H as ->. by exists [], x, xs, init.
Qed.

Lemma reduce_Throw_intro {A B : Type} (f : A -> B -> Completion A)
  (done rest : list B) (x : B) (init acc : A) (e : Error) :
  reduce f done init = Normal acc -> f acc x = Throw e ->
  reduce f (done ++ x :: rest) init = Throw e.
Proof.
  intros Hd Hx. rewrite reduce_app, Hd. simpl. by rewrite Hx.
Qed.

(** The text of the error message, spelled out. *)
Lemma mismatchMessage_text (endpoint key : string) :
  mismatchMessage endpoint key
  = ("Parameter " +:+ Js.dquote +:+ key +:+ Js.dquote
       +:+ " was provided but placeholder "
       +:+ Js.dquote +:+ placeholder key +:+ Js.dquote
       +:+ " not found in endpoint template. ")
    +:+ "Available placeholders: " +:+ availablePlaceholders endpoint.
Proof.
  unfold mismatchMessage. rewrite or_else_join_scan. unfold placeholder.
  by rewrite !str_app_assoc.
Qed.

(** C1 (as the code has it). Interpolation throws only on behalf of a
    supplied parameter: when it throws, some supplied entry found no
    placeholder for its key in the string built by the entries before it.
    A placeholder of the template that no parameter is supplied for is not
    looked for: with absent or empty parameters the template comes back
    with the placeholder still in it. *)
Theorem interpolateParams_checks_supplied_only (template : string)
  (params : option Params) :
  (forall e : Error,
      interpolateParams template params = Throw e ->
      exists (done : Params) (key : string) (value : JsValue) (rest : Params)
             (endpoint : string),
        params = Some (done ++ (key, value) :: rest)
        /\ reduce substituteParam done template = Normal endpoint
        /\ ~ contains endpoint (placeholder key)
        /\ e = mkError (mismatchMessage endpoint key))
  /\ (forall name : string,
        contains template (placeholder name) ->
        params = None \/ params = Some [] ->
        exists result,
          interpolateParams template params = Normal result
          /\ contains result (placeholder name)).
Proof.
  split.
  - intros e H. destruct params as [entries|]; [|discriminate].
    rewrite interpolateParams_reduce in H.
    apply reduce_Throw_inv in H as (done & [key value] & rest & acc & -> & Hd & Hx).
    apply substituteParam_Throw_inv in Hx as [Hn ->].
    by exists done, key, value, rest, acc.
  - intros name Hc [-> | ->]; by exists template.
Qed.

(** C4 (as the code has it). When the turn of an entry comes and its key
    has no placeholder in the string built so far, interpolation throws;
    the message names the key and its placeholder and lists the
    placeholders the pattern finds in that string ([none] when it finds
    nothing): each of them is a placeholder text occurring in the string,
    and on a string of literal text and holes they are all its holes. For
    the first entry that string is the template itself. *)
Theorem interpolateParams_mismatch (template : string) (done : Params)
  (key : string) (value : JsValue) (rest : Params) (endpoint : string) :
  reduce substituteParam done template = Normal endpoint ->
  ~ contains endpoint (placeholder key) ->
  exists e : Error,
    interpolateParams template (Some (done ++ (key, value) :: rest)) = Throw e
    /\ message e
       = ("Parameter " +:+ Js.dquote +:+ key +:+ Js.dquote
            +:+ " was provided but placeholder "
            +:+ Js.dquote +:+ placeholder key +:+ Js.dquote
            +:+ " not found in endpoint template. ")
         +:+ "Available placeholders: " +:+ availablePlaceholders endpoint
    /\ (forall m : string,
          m ∈ Js.scan O endpoint -> isPlaceholderText m /\ contains endpoint m)
    /\ (forall segments : list Segment,
          Forall wellFormedSegment segments -> endpoint = render segments ->
          Js.scan O endpoint = holes segments)
    /\ (done = [] -> endpoint = template).
Proof.
  intros Hd Hn. exists (mkError (mismatchMessage endpoint key)).
  split; [|split; [|split; [|split]]].
  - rewrite interpolateParams_reduce.
    eapply reduce_Throw_intro; [exact Hd|]. by apply substituteParam_Throw.
  - apply mismatchMessage_text.
  - apply scan_sound.
  - intros segments Hw ->. by apply scan_render.
  - intros ->. by injection Hd.
Qed.

End InterpolatorFacts.

(** ** Literal substitution *)

Lemma indexOf_firstOccurrence (s pre pat post : string) :
  firstOccurrence s pre pat post ->
  Js.indexOf s pat = Some (String.length pre).
Proof.
  intros [-> Hmin]. destruct (indexOf_app pre pat post) as (n & Hn & Hle).
  destruct (indexOf_Some _ _ _ Hn) as (pre0 & post0 & E & Hlen).
  apply Hmin in E. rewrite Hn. f_equal. lia.
Qed.

Lemma occursOnce_firstOccurrence (s pre pat post : string) :
  occursOnce s pre pat post -> firstOccurrence s pre pat post.
Proof.
  intros [E Hu]. split; [exact E|]. intros pre' post' E'.
  by rewrite (Hu _ _ E').
Qed.

Lemma replace_firstOccurrence (s pre pat post replacement : string) :
  firstOccurrence s pre pat post ->
  Js.replace s pat replacement
  = pre +:+ Js.getSubstitution pat pre post replacement +:+ post.
Proof.
  intros H. unfold Js.replace. rewrite (indexOf_firstOccurrence _ _ _ _ H).
  destruct H as [-> _].
  by rewrite take_app_length, drop_add, !drop_app_length.
Qed.

(** A replacement text without dollar sign stands for itself. *)
Lemma getSubstitution_literal (matched before after template : string) :
  ~ contains template "$" ->
  Js.getSubstitution matched before after template = template.
Proof.
  induction template as [|c rest IH]; intros H; [reflexivity|].
  assert (Ascii.eqb c "$" = false) as Hc.
  { apply Ascii.eqb_neq. intros ->. apply H, contains_char_cons. by left. }
  simpl. rewrite Hc. f_equal. apply IH.
  intros Hr. apply H, contains_char_cons. by right.
Qed.

Section Substitution.

Variable jsDateToYyyyMmDd : JsDate -> string.

#[local] Abbreviation substituteParam := (substituteParam jsDateToYyyyMmDd).
#[local] Abbreviation interpolateParams := (interpolateParams jsDateToYyyyMmDd).
#[local] Abbreviation stringValue := (stringValue jsDateToYyyyMmDd).

(** A value whose text has no dollar sign replaces the first occurrence of
    its placeholder, and nothing else changes. *)
Lemma substituteParam_literal (endpoint pre post key : string)
  (value : JsValue) :
  firstOccurrence endpoint pre (placeholder key) post ->
  ~ contains (stringValue value) "$" ->
  substituteParam endpoint (key, value)
  = Normal (pre +:+ stringValue value +:+ post).
Proof.
  intros Hf Hd. rewrite substituteParam_Normal.
  - by rewrite (replace_firstOccurrence _ _ _ _ _ Hf), getSubstitution_literal.
  - destruct Hf as [-> _]. by exists pre, post.
Qed.

(** In particular when the placeholder occurs once. *)
Lemma substituteParam_once_literal (endpoint pre post key : string)
  (value : JsValue) :
  occursOnce endpoint pre (placeholder key) post ->
  ~ contains (stringValue value) "$" ->
  interpolateParams endpoint (Some [(key, value)])
  = Normal (pre +:+ stringValue value +:+ post).
Proof.
  intros Ho Hd. rewrite interpolateParams_reduce.
  change (reduce substituteParam [(key, value)] endpoint)
    with (bind (substituteParam endpoint (key, value))
            (reduce substituteParam [])).
  rewrite (substituteParam_literal endpoint pre post key value);
    [reflexivity | by apply occursOnce_firstOccurrence | exact Hd].
Qed.

(** C5 (where the code departs from it). A value whose text carries one
    of the patterns [$&], [$$], [$`], [$'] is not inserted as it is: for the
    template [/item/{id}/x], the value [$&] gives back the placeholder, the
    value [US$$5] loses a character, and [$'] and [$`] copy the text around
    the placeholder. *)
Theorem substituteParam_rewrites_dollar_patterns :
  occursOnce "/item/{id}/x" "/item/" (placeholder "id") "/x"
  /\ interpolateParams "/item/{id}/x" (Some [("id", VString "$&")])
     = Normal "/item/{id}/x"
  /\ interpolateParams "/item/{id}/x" (Some [("id", VString "US$$5")])
     = Normal "/item/US$5/x"
  /\ interpolateParams "/item/{id}/x" (Some [("id", VString "$'")])
     = Normal "/item//x/x"
  /\ interpolateParams "/item/{id}/x" (Some [("id", VString "$`")])
     = Normal "/item//item//x".
Proof.
  split; [|by repeat split]. split; [reflexivity|].
  intros pre' post' E. unfold placeholder in E.
  do 13 (destruct pre' as [|? pre']; [by simplify_eq/=|]).
  by simplify_eq/=.
Qed.

End Substitution.

(** ** The fetch factory *)

Section FactoryFacts.

Variable jsDateToYyyyMmDd : JsDate -> string.
Variable configManager : ConfigManager.
Variables LoggingMode T World : Type.
Variable fetchFn : ApiClient LoggingMode T World.
Variable apiPath : string.

#[local] Abbreviation endpointFunction :=
  (createFetchFactory jsDateToYyyyMmDd configManager LoggingMode T World
     fetchFn apiPath).

(** C7 (as the code has it). The error of a failed interpolation reaches
    the caller unchanged, as a throw of the call itself, and the world is
    as it was: the client has not been called. When interpolation succeeds
    the call is the call of the client on the built URL, so that a
    rejected promise of the client is returned as it is. *)
Theorem createFetchFactory_propagates (endpointTemplate : string)
  (params : option Params) (logMode : option LoggingMode) (w : World) :
  (forall e : Error,
      interpolateParams jsDateToYyyyMmDd endpointTemplate params = Throw e ->
      endpointFunction endpointTemplate params logMode w = (Throw e, w))
  /\ (forall endpoint : string,
        interpolateParams jsDateToYyyyMmDd endpointTemplate params
        = Normal endpoint ->
        endpointFunction endpointTemplate params logMode w
        = fetchFn (buildUrl configManager apiPath endpoint) logMode w
        /\ forall (reason : Error) (w' : World),
            fetchFn (buildUrl configManager apiPath endpoint) logMode w
            = (Normal (Rejected reason), w') ->
            endpointFunction endpointTemplate params logMode w
            = (Normal (Rejected reason), w')).
Proof.
  unfold createFetchFactory. split.
  - intros e ->. reflexivity.
  - intros endpoint ->. split; [reflexivity|]. by intros reason w' ->.
Qed.

End FactoryFacts.

(** ** Dates *)

Lemma below_bound (P : nat -> bool) (bound : Z) :
  forallb P (seq 0 (Z.to_nat bound)) = true ->
  forall n : Z, 0 <= n < bound -> P (Z.to_nat n) = true.
Proof.
  intros H n Hn. rewrite forallb_forall in H. apply H, in_seq. lia.
Qed.

Lemma padStart0_fourDigits (n : Z) :
  0 <= n <= 9999 -> Js.padStart0 4 (Js.String_of_number n) = fourDigits n.
Proof.
  intros Hn.
  pose proof (below_bound
    (fun k => String.eqb (Js.padStart0 4 (Js.String_of_number (Z.of_nat k)))
                (fourDigits (Z.of_nat k))) 10000) as H.
  specialize (H ltac:(vm_compute; reflexivity) n ltac:(lia)).
  simpl in H. rewrite Z2Nat.id in H by lia. by apply String.eqb_eq.
Qed.

Lemma padStart0_twoDigits (n : Z) :
  0 <= n <= 99 -> Js.padStart0 2 (Js.String_of_number n) = twoDigits n.
Proof.
  intros Hn.
  pose proof (below_bound
    (fun k => String.eqb (Js.padStart0 2 (Js.String_of_number (Z.of_nat k)))
                (twoDigits (Z.of_nat k))) 100) as H.
  specialize (H ltac:(vm_compute; reflexivity) n ltac:(lia)).
  simpl in H. rewrite Z2Nat.id in H by lia. by apply String.eqb_eq.
Qed.

Lemma digit_not_dollar (n : Z) : digit n <> "$"%char.
Proof.
  unfold digit. assert (Z.to_nat (n mod 10) < 10)%nat as H.
  { pose proof (Z.mod_pos_bound n 10). lia. }
  generalize dependent (Z.to_nat (n mod 10)). intros k Hk.
  do 10 (destruct k as [|k]; [intros E; vm_compute in E; discriminate E|]).
  lia.
Qed.

Lemma jsDateToYyyyMmDd_spec_digits (d : JsDate) :
  fourDigitYearDate d ->
  jsDateToYyyyMmDd_spec d
  = fourDigits (getFullYear d) +:+ "-" +:+ twoDigits (getMonth d + 1)
      +:+ "-" +:+ twoDigits (getDate d).
Proof.
  intros (Hy & Hm & Hd). unfold jsDateToYyyyMmDd_spec.
  by rewrite padStart0_fourDigits, !padStart0_twoDigits by lia.
Qed.

Lemma jsDateToYyyyMmDd_spec_no_dollar (d : JsDate) :
  fourDigitYearDate d -> ~ contains (jsDateToYyyyMmDd_spec d) "$".
Proof.
  intros H. rewrite (jsDateToYyyyMmDd_spec_digits d H).
  unfold fourDigits, twoDigits. simpl.
  repeat (intros [E|C]%contains_char_cons;
          [by (discriminate E || apply digit_not_dollar in E) | revert C]).
  apply not_contains_empty.
Qed.

(** C8 (as settled on the modelled formatter). For a date whose local year
    has at most four digits, the text substituted for a date-valued
    parameter is the ten characters YYYY-MM-DD of its local calendar
    fields, zero-padded; it replaces the first occurrence of the
    placeholder. The template [/schedule/{tripDate}/{routeId}] with the
    local date 2024-01-15 and route 5 gives [/schedule/2024-01-15/5]. *)
Theorem interpolate_date_yyyy_mm_dd (d : JsDate) :
  fourDigitYearDate d ->
  stringValue jsDateToYyyyMmDd_spec (VDate d)
  = fourDigits (getFullYear d) +:+ "-" +:+ twoDigits (getMonth d + 1)
      +:+ "-" +:+ twoDigits (getDate d)
  /\ String.length (stringValue jsDateToYyyyMmDd_spec (VDate d)) = 10%nat
  /\ (forall endpoint pre post key : string,
        firstOccurrence endpoint pre (placeholder key) post ->
        substituteParam jsDateToYyyyMmDd_spec endpoint (key, VDate d)
        = Normal (pre +:+ stringValue jsDateToYyyyMmDd_spec (VDate d)
                    +:+ post))
  /\ interpolateParams jsDateToYyyyMmDd_spec "/schedule/{tripDate}/{routeId}"
       (Some [("tripDate", VDate (mkDate 2024 0 15));
              ("routeId", VNumber 5)])
     = Normal "/schedule/2024-01-15/5".
Proof.
  intros H. split; [|split; [|split]].
  - by apply jsDateToYyyyMmDd_spec_digits.
  - simpl. by rewrite (jsDateToYyyyMmDd_spec_digits d H).
  - intros endpoint pre post key Hf.
    apply substituteParam_literal; [exact Hf|].
    by apply jsDateToYyyyMmDd_spec_no_dollar.
  - reflexivity.
Qed.

(** * Instances *)

(** ** Environments *)

(** C3 at a test worker with a DOM, at a browser and at a server. *)
Lemma getEnvironmentType_classifies_witness :
  (workerIdPresent testWorker /\ browserGlobals testWorker
   /\ getEnvironmentType testWorker = "test")
  /\ (~ testSignal browser /\ browserGlobals browser
      /\ getEnvironmentType browser = "web")
  /\ (~ testSignal server /\ ~ browserGlobals server
      /\ getEnvironmentType server = "server").
Proof.
  assert (workerIdPresent testWorker) as Hworker.
  { exists {| env := {["VITEST_WORKER_ID" := ""]} |}, "".
    split; [reflexivity | vm_compute; reflexivity]. }
  assert (browserGlobals testWorker) as Hdom by (split; eexists; reflexivity).
  assert (~ testSignal browser) as Hb.
  { intros H. apply isTestEnvironment_iff in H. vm_compute in H. discriminate H. }
  assert (browserGlobals browser) as Hbg by (split; eexists; reflexivity).
  assert (~ testSignal server) as Hs.
  { intros H. apply isTestEnvironment_iff in H. vm_compute in H. discriminate H. }
  assert (~ browserGlobals server) as Hsg.
  { intros H. apply isWebEnvironment_iff in H. vm_compute in H. discriminate H. }
  split; [|split].
  - split; [exact Hworker|]. split; [exact Hdom|].
    apply (proj1 (getEnvironmentType_classifies testWorker)).
    right; left. exact Hworker.
  - split; [exact Hb|]. split; [exact Hbg|].
    exact (proj1 (proj2 (getEnvironmentType_classifies browser)) Hb Hbg).
  - split; [exact Hs|]. split; [exact Hsg|].
    exact (proj2 (proj2 (getEnvironmentType_classifies server)) Hs Hsg).
Defined.

(** C2 at a test runner with JSONP forced, at the three environments
    without it, and at a value the [switch] does not list. *)
Lemma selectFetchStrategy_selects_witness :
  (forceJsonp forcedTestRunner /\ getEnvironmentType forcedTestRunner = "test"
   /\ selectFetchStrategy forcedTestRunner = fetchJsonp)
  /\ (~ forceJsonp testWorker /\ selectFetchStrategy testWorker = fetchNative)
  /\ (~ forceJsonp browser /\ selectFetchStrategy browser = fetchJsonp)
  /\ (~ forceJsonp server /\ selectFetchStrategy server = fetchNative)
  /\ strategyOfEnvironment "worker" = fetchNative.
Proof.
  assert (forceJsonp forcedTestRunner) as Hf.
  { eexists. split; [reflexivity | vm_compute; reflexivity]. }
  assert (~ forceJsonp testWorker) as Ht.
  { intros H. apply forceJsonp_iff in H. vm_compute in H. discriminate H. }
  assert (~ forceJsonp browser) as Hb.
  { intros H. apply forceJsonp_iff in H. vm_compute in H. discriminate H. }
  assert (~ forceJsonp server) as Hs.
  { intros H. apply forceJsonp_iff in H. vm_compute in H. discriminate H. }
  split; [|split; [|split; [|split]]].
  - split; [exact Hf|]. split; [vm_compute; reflexivity|].
    exact (proj1 (selectFetchStrategy_selects forcedTestRunner) Hf).
  - split; [exact Ht|].
    destruct (proj1 (proj2 (selectFetchStrategy_selects testWorker)) Ht)
      as (_ & Htest & _ & _).
    apply Htest. vm_compute; reflexivity.
  - split; [exact Hb|].
    destruct (proj1 (proj2 (selectFetchStrategy_selects browser)) Hb)
      as (_ & _ & _ & Hweb).
    apply Hweb. vm_compute; reflexivity.
  - split; [exact Hs|].
    destruct (proj1 (proj2 (selectFetchStrategy_selects server)) Hs)
      as (_ & _ & Hserver & _).
    apply Hserver. vm_compute; reflexivity.
  - apply (proj2 (proj2 (selectFetchStrategy_selects server)));
      discriminate.
Defined.

(** ** URLs *)

(** C6 at a ferries path with a plain endpoint, and at another path with
    an endpoint that has a query of its own. *)
Lemma buildUrl_shape_witness :
  buildUrl exampleConfig "/ferries/api/schedule/rest" "/routes/2024-01-15"
  = "https://www.wsdot.wa.gov/ferries/api/schedule/rest/routes/2024-01-15?apiaccesscode=KEY"
  /\ buildUrl exampleConfig "/api/other" "/x?y=1"
     = "https://www.wsdot.wa.gov/api/other/x?y=1&AccessCode=KEY".
Proof.
  split.
  - destruct (buildUrl_shape exampleConfig "/ferries/api/schedule/rest"
                "/routes/2024-01-15")
      as (keyParam & separator & -> & _ & Hwsf & _ & _ & Hsep).
    rewrite Hwsf, Hsep; [reflexivity | |].
    + intros H. apply includes_true_iff in H. vm_compute in H. discriminate H.
    + by exists "", "api/schedule/rest".
  - destruct (buildUrl_shape exampleConfig "/api/other" "/x?y=1")
      as (keyParam & separator & -> & _ & _ & Hwsdot & Hsep & _).
    rewrite Hwsdot, Hsep; [reflexivity | |].
    + by exists "/x", "y=1".
    + intros H. apply includes_true_iff in H. vm_compute in H. discriminate H.
Defined.

(** ** Interpolation *)

(** C1, counterexample. The template has the placeholder [{tripDate}], no
    parameter of that name is supplied, and the call returns a string that
    still has the placeholder. *)
Lemma unsupplied_placeholder_counterexample :
  contains "/schedule/{tripDate}/{routeId}" (placeholder "tripDate")
  /\ (forall v : JsValue, ("tripDate", v) ∉ [("routeId", VNumber 5)])
  /\ interpolateParams jsDateToYyyyMmDd_spec "/schedule/{tripDate}/{routeId}"
       (Some [("routeId", VNumber 5)])
     = Normal "/schedule/{tripDate}/5"
  /\ contains "/schedule/{tripDate}/5" (placeholder "tripDate").
Proof.
  split; [by exists "/schedule/", "/{routeId}"|].
  split; [intros v [=]%list_elem_of_singleton|].
  split; [reflexivity | by exists "/schedule/", "/5"].
Qed.

(** C1 at [/item/{id}]: without parameters the placeholder stays; with
    [id] and a [page] that has no placeholder, [page] is where it throws. *)
Lemma interpolateParams_checks_supplied_only_witness :
  (exists result,
      interpolateParams jsDateToYyyyMmDd_spec "/item/{id}" None = Normal result
      /\ contains result (placeholder "id"))
  /\ (exists (done : Params) (key : string) (value : JsValue) (rest : Params)
             (endpoint : string),
        Some [("id", VNumber 7); ("page", VNumber 2)]
        = Some (done ++ (key, value) :: rest)
        /\ reduce (substituteParam jsDateToYyyyMmDd_spec) done "/item/{id}"
           = Normal endpoint
        /\ ~ contains endpoint (placeholder key)
        /\ mkError (mismatchMessage "/item/7" "page")
           = mkError (mismatchMessage endpoint key)).
Proof.
  split.
  - apply (proj2 (interpolateParams_checks_supplied_only jsDateToYyyyMmDd_spec
                    "/item/{id}" None) "id").
    + by exists "/item/", "".
    + by left.
  - apply (proj1 (interpolateParams_checks_supplied_only jsDateToYyyyMmDd_spec
                    "/item/{id}"
                    (Some [("id", VNumber 7); ("page", VNumber 2)]))).
    vm_compute; reflexivity.
Defined.

(** C4, counterexample. The key [b] is not in the template [/{a}], yet
    interpolation succeeds, because the value of [a] brought [{b}] in; and
    when [c] is missing from [/{a}/{b}] after [a] was substituted, the
    message lists [{b}] only, not the [{a}] of the template. *)
Lemma absent_key_counterexample :
  (~ contains "/{a}" (placeholder "b")
   /\ interpolateParams jsDateToYyyyMmDd_spec "/{a}"
        (Some [("a", VString "{b}"); ("b", VString "X")])
      = Normal "/X")
  /\ (Js.scan O "/{a}/{b}" = ["{a}"; "{b}"]
      /\ interpolateParams jsDateToYyyyMmDd_spec "/{a}/{b}"
           (Some [("a", VNumber 1); ("c", VNumber 2)])
         = Throw (mkError
             ("Parameter " +:+ Js.dquote +:+ "c" +:+ Js.dquote
                +:+ " was provided but placeholder "
                +:+ Js.dquote +:+ "{c}" +:+ Js.dquote
                +:+ " not found in endpoint template. "
                +:+ "Available placeholders: {b}"))).
Proof.
  split; split; try reflexivity.
  intros H. apply includes_true_iff in H. vm_compute in H. discriminate H.
Qed.

(** C4 at [/{a}/{b}] with [a] and then [c]. *)
Lemma interpolateParams_mismatch_witness :
  reduce (substituteParam jsDateToYyyyMmDd_spec) [("a", VNumber 1)] "/{a}/{b}"
  = Normal "/1/{b}"
  /\ ~ contains "/1/{b}" (placeholder "c")
  /\ exists e : Error,
      interpolateParams jsDateToYyyyMmDd_spec "/{a}/{b}"
        (Some ([("a", VNumber 1)] ++ ("c", VNumber 2) :: []))
      = Throw e
      /\ message e
         = ("Parameter " +:+ Js.dquote +:+ "c" +:+ Js.dquote
              +:+ " was provided but placeholder "
              +:+ Js.dquote +:+ placeholder "c" +:+ Js.dquote
              +:+ " not found in endpoint template. ")
           +:+ "Available placeholders: " +:+ availablePlaceholders "/1/{b}"
      /\ (forall m : string,
            m ∈ Js.scan O "/1/{b}" ->
            isPlaceholderText m /\ contains "/1/{b}" m)
      /\ (forall segments : list Segment,
            Forall wellFormedSegment segments -> "/1/{b}" = render segments ->
            Js.scan O "/1/{b}" = holes segments)
      /\ ([("a", VNumber 1)] = [] -> "/1/{b}" = "/{a}/{b}").
Proof.
  assert (~ contains "/1/{b}" (placeholder "c")) as Hn.
  { intros H. apply includes_true_iff in H. vm_compute in H. discriminate H. }
  split; [reflexivity|]. split; [exact Hn|].
  exact (interpolateParams_mismatch jsDateToYyyyMmDd_spec "/{a}/{b}"
           [("a", VNumber 1)] "c" (VNumber 2) [] "/1/{b}" eq_refl Hn).
Defined.

(** ** The factory *)

(** C7, counterexample. A parameter without placeholder makes the call
    itself throw: no promise is returned, rejected or not. *)
Lemma synchronous_throw_counterexample :
  (exists e : Error,
      interpolateParams jsDateToYyyyMmDd_spec "/routes/{tripDate}"
        (Some [("routeId", VNumber 5)])
      = Throw e
      /\ getRoutes (Some [("routeId", VNumber 5)]) [] = (Throw e, []))
  /\ forall (p : Promise unit) (requested : list string),
      getRoutes (Some [("routeId", VNumber 5)]) [] <> (Normal p, requested).
Proof.
  split; [eexists; split; reflexivity | discriminate].
Qed.

(** C7 at the routes endpoint: a parameter without placeholder throws and
    nothing is requested; a trip date is requested at the built URL. *)
Lemma createFetchFactory_propagates_witness :
  (exists e : Error,
      getRoutes (Some [("routeId", VNumber 5)]) [] = (Throw e, []))
  /\ getRoutes (Some [("tripDate", VDate (mkDate 2024 0 15))]) []
     = (Normal (Fulfilled tt),
        ["https://www.wsdot.wa.gov/ferries/api/schedule/rest/routes/2024-01-15?apiaccesscode=KEY"]).
Proof.
  split.
  - eexists.
    apply (proj1 (createFetchFactory_propagates jsDateToYyyyMmDd_spec
                    exampleConfig unit unit (list string) recordingClient
                    "/ferries/api/schedule/rest" "/routes/{tripDate}"
                    (Some [("routeId", VNumber 5)]) None [])).
    vm_compute; reflexivity.
  - apply (proj2 (createFetchFactory_propagates jsDateToYyyyMmDd_spec
                    exampleConfig unit unit (list string) recordingClient
                    "/ferries/api/schedule/rest" "/routes/{tripDate}"
                    (Some [("tripDate", VDate (mkDate 2024 0 15))]) None [])
             "/routes/2024-01-15").
    vm_compute; reflexivity.
Defined.

(** ** Dates *)

(** C8, counterexample. A date in the year 10000 gives eleven characters. *)
Lemma five_digit_year_counterexample :
  stringValue jsDateToYyyyMmDd_spec (VDate (mkDate 10000 0 1)) = "10000-01-01"
  /\ String.length (stringValue jsDateToYyyyMmDd_spec (VDate (mkDate 10000 0 1)))
     = 11%nat.
Proof. split; reflexivity. Qed.

(** C8 at the local date 2024-01-15. *)
Lemma interpolate_date_yyyy_mm_dd_witness :
  fourDigitYearDate (mkDate 2024 0 15)
  /\ stringValue jsDateToYyyyMmDd_spec (VDate (mkDate 2024 0 15)) = "2024-01-15"
  /\ String.length (stringValue jsDateToYyyyMmDd_spec (VDate (mkDate 2024 0 15)))
     = 10%nat.
Proof.
  assert (fourDigitYearDate (mkDate 2024 0 15)) as H
    by (unfold fourDigitYearDate; simpl; lia).
  split; [exact H|].
  destruct (interpolate_date_yyyy_mm_dd (mkDate 2024 0 15) H)
    as (Htext & Hlen & _).
  split; [rewrite Htext; reflexivity | exact Hlen].
Defined.

(** * Plain templates

    What interpolation does on a template of literal text and holes, when
    neither the text, nor the names, nor the values carry braces. *)

(** ** More on strings *)

Lemma str_length_app (s1 s2 : string) :
  String.length (s1 +:+ s2) = (String.length s1 + String.length s2)%nat.
Proof. induction s1 as [|c s1 IH]; simpl; [reflexivity | by rewrite IH]. Qed.

(** Two ways of cutting one string: one cut comes first. *)
Lemma str_app_eq_inv (s1 s2 t1 t2 : string) :
  s1 +:+ s2 = t1 +:+ t2 ->
  (exists m, t1 = s1 +:+ m /\ s2 = m +:+ t2)
  \/ (exists c m, s1 = t1 +:+ String c m /\ t2 = String c m +:+ s2).
Proof.
  revert t1. induction s1 as [|c s1 IH]; intros t1 E.
  - left. by exists t1.
  - destruct t1 as [|d t1].
    + right. by exists c, s1.
    + simpl in E. injection E as -> E.
      destruct (IH _ E) as [(m & -> & ->)|(c' & m & -> & ->)].
      * left. by exists m.
      * right. by exists c', m.
Qed.

Lemma contains_char_app (c : ascii) (s1 s2 : string) :
  contains (s1 +:+ s2) (String c "")
  <-> contains s1 (String c "") \/ contains s2 (String c "").
Proof.
  induction s1 as [|d s1 IH].
  - change ("" +:+ s2) with s2. split; [by right|].
    intros [H|H]; [by apply not_contains_empty in H | exact H].
  - change (String d s1 +:+ s2) with (String d (s1 +:+ s2)).
    rewrite !contains_char_cons, IH. tauto.
Qed.

(** Up to the first closing brace, two equal strings are equal. *)
Lemma close_brace_inj (a b x y : string) :
  ~ contains a "}" -> ~ contains b "}" ->
  a +:+ String "}" x = b +:+ String "}" y -> a = b /\ x = y.
Proof.
  revert b. induction a as [|c a IH]; intros [|d b] Ha Hb E; simpl in E.
  - by injection E.
  - injection E as <- _. destruct Hb. apply contains_char_cons. by left.
  - injection E as -> _. destruct Ha. apply contains_char_cons. by left.
  - injection E as -> E. destruct (IH b) as [-> ->]; try done.
    + intros H. apply Ha, contains_char_cons. by right.
    + intros H. apply Hb, contains_char_cons. by right.
Qed.

(** ** Segments *)

Lemma render_app (xs ys : list Segment) :
  render (xs ++ ys) = render xs +:+ render ys.
Proof.
  induction xs as [|[text|name] xs IH]; simpl; [reflexivity| |];
    by rewrite IH, ?str_app_assoc.
Qed.

Lemma holeNames_app (xs ys : list Segment) :
  holeNames (xs ++ ys) = holeNames xs ++ holeNames ys.
Proof.
  induction xs as [|[text|name] xs IH]; simpl; [reflexivity| |]; by rewrite IH.
Qed.

Lemma plainSegment_wellFormed (segment : Segment) :
  plainSegment segment -> wellFormedSegment segment.
Proof. destruct segment; simpl; unfold braceFree; tauto. Qed.

(** The first hole of a given name. *)
Lemma holeNames_split (segments : list Segment) (key : string) :
  key ∈ holeNames segments ->
  exists before after,
    segments = before ++ Hole key :: after /\ key ∉ holeNames before.
Proof.
  induction segments as [|[text|name] rest IH]; simpl; intros H.
  - by apply elem_of_nil in H.
  - destruct (IH H) as (before & after & -> & Hn).
    by exists (Literal text :: before), after.
  - destruct (decide (name = key)) as [->|Hne].
    + exists [], rest. split; [reflexivity | apply not_elem_of_nil].
    + apply elem_of_cons in H as [->|H]; [done|].
      destruct (IH H) as (before & after & -> & Hn).
      exists (Hole name :: before), after. split; [reflexivity|].
      simpl. intros [->|H']%elem_of_cons; done.
Qed.

(** In a plain template the placeholder of a key occurs only where a hole
    of that name stands. *)
Lemma placeholder_occurs_at_hole (segments : list Segment)
  (key pre post : string) :
  Forall plainSegment segments -> ~ contains key "}" ->
  render segments = pre +:+ placeholder key +:+ post ->
  exists before after,
    segments = before ++ Hole key :: after
    /\ pre = render before /\ post = render after.
Proof.
  intros Hw Hk. revert pre.
  induction Hw as [|[text|name] rest Hs _ IH]; intros pre E; simpl in E.
  - destruct pre; discriminate E.
  - apply str_app_eq_inv in E as [(m & -> & E)|(c & m & -> & E)].
    + destruct (IH _ E) as (before & after & -> & -> & ->).
      by exists (Literal text :: before), after.
    + injection E as <- _. destruct Hs as [Hs _]. destruct Hs.
      apply contains_char_app. right. apply contains_char_cons. by left.
  - destruct Hs as (Hne & Hopen & Hclose).
    rewrite (str_app_assoc name "}" (render rest)) in E.
    destruct pre as [|c pre].
    + simpl in E. injection E as E.
      rewrite (str_app_assoc key "}" post) in E.
      apply close_brace_inj in E as [-> <-]; [|done..].
      by exists [], rest.
    + simpl in E. injection E as <- E.
      apply str_app_eq_inv in E as [(m & -> & E)|(c & m & -> & E)].
      * destruct m as [|c m]; [discriminate E|].
        simpl in E. injection E as <- E.
        destruct (IH _ E) as (before & after & -> & -> & ->).
        exists (Hole name :: before), after. split; [reflexivity|].
        split; [|reflexivity]. simpl.
        by rewrite !str_app_assoc.
      * injection E as <- _. destruct Hopen.
        apply contains_char_app. right. apply contains_char_cons. by left.
Qed.

Lemma split_at_first_hole (before after before' after' : list Segment)
  (key : string) :
  before ++ Hole key :: after = before' ++ Hole key :: after' ->
  key ∉ holeNames before ->
  exists middle, before' = before ++ middle.
Proof.
  revert before'. induction before as [|x before IH]; intros before' E Hn.
  - by exists before'.
  - destruct before' as [|y before'].
    + injection E as -> _. destruct Hn. simpl. apply elem_of_cons. by left.
    + injection E as -> E. destruct (IH _ E) as [middle ->].
      * intros H. apply Hn. destruct y; simpl; [exact H|].
        apply elem_of_cons. by right.
      * by exists middle.
Qed.

Lemma firstOccurrence_at_hole (before after : list Segment) (key : string) :
  Forall plainSegment (before ++ Hole key :: after) ->
  key ∉ holeNames before ->
  firstOccurrence (render (before ++ Hole key :: after)) (render before)
    (placeholder key) (render after).
Proof.
  intros Hw Hn. split.
  - by rewrite render_app.
  - intros pre' post' E.
    assert (~ contains key "}") as Hk.
    { apply Forall_app in Hw as [_ Hw]. apply Forall_cons in Hw as [Hw _].
      apply Hw. }
    destruct (placeholder_occurs_at_hole _ _ _ _ Hw Hk E)
      as (before' & after' & E' & -> & _).
    destruct (split_at_first_hole _ _ _ _ _ E' Hn) as [middle ->].
    rewrite render_app, str_length_app. lia.
Qed.

(** ** Filling *)

Lemma fill_empty (segments : list Segment) : fill ∅ segments = segments.
Proof.
  induction segments as [|[text|name] rest IH]; [reflexivity| |];
    unfold fill in *; simpl; rewrite ?lookup_empty; by f_equal.
Qed.

Lemma fill_untouched (values : gmap string string) (segments : list Segment) :
  (forall name, name ∈ holeNames segments -> values !! name = None) ->
  fill values segments = segments.
Proof.
  induction segments as [|[text|name] rest IH]; intros H; [reflexivity| |];
    unfold fill in *; simpl.
  - f_equal. by apply IH.
  - rewrite (H name) by (simpl; apply elem_of_cons; by left). f_equal.
    apply IH. intros n Hn. apply H. simpl. apply elem_of_cons. by right.
Qed.

Lemma fill_fill (first second : gmap string string)
  (segments : list Segment) :
  fill second (fill first segments) = fill (first ∪ second) segments.
Proof.
  unfold fill. rewrite <- list_fmap_compose. apply list_fmap_ext.
  intros _ [text|name] _; simpl; [reflexivity|].
  destruct (first !! name) as [text|] eqn:E; simpl.
  - by rewrite (lookup_union_Some_l _ _ _ _ E).
  - by rewrite lookup_union_r.
Qed.

Lemma holeNames_fill (values : gmap string string)
  (segments : list Segment) :
  holeNames (fill values segments)
  = filter (fun name => values !! name = None) (holeNames segments).
Proof.
  induction segments as [|[text|name] rest IH]; [reflexivity|exact IH|].
  unfold fill in *. simpl. destruct (values !! name) as [text|] eqn:E; simpl.
  - rewrite filter_cons_False by (by rewrite E). exact IH.
  - rewrite filter_cons_True by exact E. by f_equal.
Qed.

Lemma plainSegment_fill (values : gmap string string)
  (segments : list Segment) :
  Forall plainSegment segments ->
  (forall name text, values !! name = Some text -> braceFree text) ->
  Forall plainSegment (fill values segments).
Proof.
  intros Hw Hv. unfold fill. apply Forall_fmap.
  eapply Forall_impl; [exact Hw|]. intros [text|name] Hs; simpl; [exact Hs|].
  destruct (values !! name) as [text|] eqn:E; simpl; [by eapply Hv | exact Hs].
Qed.

Lemma fill_at_hole (before after : list Segment) (key text : string) :
  key ∉ holeNames before -> key ∉ holeNames after ->
  fill {[key := text]} (before ++ Hole key :: after)
  = before ++ Literal text :: after.
Proof.
  intros Hb Ha. unfold fill. rewrite fmap_app. simpl.
  rewrite lookup_singleton_eq.
  assert (forall segments, key ∉ holeNames segments ->
            fillSegment {[key := text]} <$> segments = segments) as H.
  { intros segments Hn. apply (fill_untouched {[key := text]}).
    intros name Hin. apply lookup_singleton_ne. by intros ->. }
  by rewrite !H.
Qed.

Lemma holes_holeNames (segments : list Segment) :
  holes segments = placeholder <$> holeNames segments.
Proof.
  induction segments as [|[text|name] rest IH]; [reflexivity|exact IH|].
  simpl. by rewrite IH.
Qed.

Lemma contains_placeholder_of_hole (segments : list Segment) (name : string) :
  name ∈ holeNames segments -> contains (render segments) (placeholder name).
Proof.
  intros H. destruct (holeNames_split _ _ H) as (before & after & -> & _).
  exists (render before), (render after). by rewrite render_app.
Qed.

Lemma paramTexts_cons (jsDateToYyyyMmDd : JsDate -> string) (key : string)
  (value : JsValue) (rest : Params) :
  paramTexts jsDateToYyyyMmDd ((key, value) :: rest)
  = {[key := stringValue jsDateToYyyyMmDd value]}
    ∪ paramTexts jsDateToYyyyMmDd rest.
Proof. unfold paramTexts. simpl. apply insert_union_singleton_l. Qed.

Lemma paramTexts_keys (jsDateToYyyyMmDd : JsDate -> string)
  (entries : Params) :
  (prod_map id (stringValue jsDateToYyyyMmDd) <$> entries).*1 = entries.*1.
Proof.
  induction entries as [|[key value] rest IH]; [reflexivity|].
  simpl. by f_equal.
Qed.

Lemma paramTexts_None (jsDateToYyyyMmDd : JsDate -> string)
  (entries : Params) (name : string) :
  paramTexts jsDateToYyyyMmDd entries !! name = None <-> name ∉ entries.*1.
Proof.
  unfold paramTexts. rewrite <- not_elem_of_list_to_map.
  by rewrite paramTexts_keys.
Qed.

Lemma paramTexts_Some (jsDateToYyyyMmDd : JsDate -> string)
  (entries : Params) (name text : string) :
  paramTexts jsDateToYyyyMmDd entries !! name = Some text ->
  exists value,
    (name, value) ∈ entries /\ text = stringValue jsDateToYyyyMmDd value.
Proof.
  unfold paramTexts. intros H. apply elem_of_list_to_map_2 in H.
  apply list_elem_of_fmap in H as ([key value] & [= -> ->] & Hin).
  by exists value.
Qed.

Lemma paramTexts_Permutation (jsDateToYyyyMmDd : JsDate -> string)
  (entries entries' : Params) :
  NoDup entries.*1 -> entries ≡ₚ entries' ->
  paramTexts jsDateToYyyyMmDd entries = paramTexts jsDateToYyyyMmDd entries'.
Proof.
  intros Hd Hp. unfold paramTexts. apply list_to_map_proper.
  - by rewrite paramTexts_keys.
  - by apply fmap_Permutation.
Qed.

Section PlainTemplates.

Variable jsDateToYyyyMmDd : JsDate -> string.

#[local] Abbreviation substituteParam := (substituteParam jsDateToYyyyMmDd).
#[local] Abbreviation interpolateParams := (interpolateParams jsDateToYyyyMmDd).
#[local] Abbreviation stringValue := (stringValue jsDateToYyyyMmDd).
#[local] Abbreviation paramTexts := (paramTexts jsDateToYyyyMmDd).

(** Substituting at the first hole of the key. *)
Lemma substituteParam_at_hole (before after : list Segment) (key : string)
  (value : JsValue) :
  Forall plainSegment (before ++ Hole key :: after) ->
  key ∉ holeNames before ->
  ~ contains (stringValue value) "$" ->
  substituteParam (render (before ++ Hole key :: after)) (key, value)
  = Normal (render (before ++ Literal (stringValue value) :: after)).
Proof.
  intros Hw Hn Hd.
  rewrite (substituteParam_literal jsDateToYyyyMmDd _ (render before)
             (render after) key value);
    [by rewrite render_app | by apply firstOccurrence_at_hole | exact Hd].
Qed.

(** A key that names no hole has no placeholder. *)
Lemma substituteParam_no_hole (segments : list Segment) (key : string)
  (value : JsValue) :
  Forall plainSegment segments -> ~ contains key "}" ->
  key ∉ holeNames segments ->
  substituteParam (render segments) (key, value)
  = Throw (mkError (mismatchMessage (render segments) key)).
Proof.
  intros Hw Hk Hn. apply substituteParam_Throw. intros (pre & post & E).
  destruct (placeholder_occurs_at_hole _ _ _ _ Hw Hk E)
    as (before & after & -> & _).
  apply Hn. rewrite holeNames_app. apply elem_of_app. right.
  simpl. apply elem_of_cons. by left.
Qed.

(** The fold over the entries fills the holes. *)
Lemma reduce_fills (entries : Params) (segments : list Segment) :
  Forall plainSegment segments -> NoDup (holeNames segments) ->
  NoDup entries.*1 ->
  (forall key value, (key, value) ∈ entries ->
     key ∈ holeNames segments /\ plainText (stringValue value)) ->
  reduce substituteParam entries (render segments)
  = Normal (render (fill (paramTexts entries) segments)).
Proof.
  revert segments.
  induction entries as [|[key value] rest IH]; intros segments Hw Hd Hk He.
  - simpl. by rewrite fill_empty.
  - destruct (He key value) as [Hin [[Hopen Hclose] Hdollar]];
      [apply elem_of_cons; by left|].
    destruct (holeNames_split _ _ Hin) as (before & after & -> & Hb).
    assert (key ∉ holeNames after) as Ha.
    { rewrite holeNames_app in Hd. apply NoDup_app in Hd as (_ & _ & Hd).
      simpl in Hd. by apply NoDup_cons in Hd as [Hd _]. }
    change (reduce substituteParam ((key, value) :: rest)
              (render (before ++ Hole key :: after)))
      with (bind (substituteParam (render (before ++ Hole key :: after))
                    (key, value))
              (reduce substituteParam rest)).
    rewrite substituteParam_at_hole by done. simpl bind.
    rewrite <- (fill_at_hole before after key (stringValue value)) by done.
    simpl in Hk. apply NoDup_cons in Hk as [Hkey Hk].
    rewrite IH.
    + by rewrite fill_fill, paramTexts_cons.
    + apply plainSegment_fill; [exact Hw|].
      intros name text [-> <-]%lookup_singleton_Some. by split.
    + rewrite holeNames_fill. by apply NoDup_filter.
    + exact Hk.
    + intros key' value' Hin'.
      destruct (He key' value') as [Hh Hp]; [apply elem_of_cons; by right|].
      split; [|exact Hp]. rewrite holeNames_fill. apply list_elem_of_filter.
      split; [|exact Hh]. apply lookup_singleton_ne. intros ->.
      apply Hkey. apply list_elem_of_fmap. by exists (key', value').
Qed.

Lemma braceFree_render_literals (segments : list Segment) :
  Forall plainSegment segments -> holeNames segments = [] ->
  braceFree (render segments).
Proof.
  induction 1 as [|[text|name] rest Hs _ IH]; simpl; intros Hn.
  - split; apply not_contains_empty.
  - destruct Hs as [Ho Hc], (IH Hn) as [Ho' Hc'].
    split; intros [H|H]%contains_char_app; tauto.
  - discriminate Hn.
Qed.

Lemma filter_none {A : Type} (P : A -> Prop) `{!forall x, Decision (P x)}
  (l : list A) :
  (forall x, x ∈ l -> ~ P x) -> filter P l = [].
Proof.
  intros Hno. destruct (filter P l) as [|x rest] eqn:E; [reflexivity|].
  assert (x ∈ filter P l) as Hin by (rewrite E; apply elem_of_cons; by left).
  apply list_elem_of_filter in Hin as [Hp Hin]. by destruct (Hno x Hin).
Qed.

(** X1. On a plain template with distinct holes, a parameter object whose keys
    name holes and whose values have plain texts is interpolated without
    error, and the result is the template with each hole that has a
    parameter replaced by the text of its value. *)
Theorem interpolateParams_fills_holes (segments : list Segment)
  (entries : Params) :
  Forall plainSegment segments -> NoDup (holeNames segments) ->
  NoDup entries.*1 ->
  (forall key value, (key, value) ∈ entries ->
     key ∈ holeNames segments /\ plainText (stringValue value)) ->
  interpolateParams (render segments) (Some entries)
  = Normal (render (fill (paramTexts entries) segments)).
Proof.
  intros. rewrite interpolateParams_reduce. by apply reduce_fills.
Qed.

(** X2. Under the same conditions, a hole that has no parameter is still in
    the result, as its placeholder. *)
Theorem interpolateParams_keeps_unsupplied_hole (segments : list Segment)
  (entries : Params) (name : string) :
  Forall plainSegment segments -> NoDup (holeNames segments) ->
  NoDup entries.*1 ->
  (forall key value, (key, value) ∈ entries ->
     key ∈ holeNames segments /\ plainText (stringValue value)) ->
  name ∈ holeNames segments -> name ∉ entries.*1 ->
  exists result,
    interpolateParams (render segments) (Some entries) = Normal result
    /\ contains result (placeholder name).
Proof.
  intros Hw Hd Hk He Hin Hout. eexists. split.
  - rewrite interpolateParams_reduce. by apply reduce_fills.
  - apply contains_placeholder_of_hole. rewrite holeNames_fill.
    apply list_elem_of_filter. split; [|exact Hin]. by apply paramTexts_None.
Qed.

(** X3. Under the same conditions, when every hole has a parameter the result
    has no brace left. *)
Theorem interpolateParams_complete_no_brace (segments : list Segment)
  (entries : Params) :
  Forall plainSegment segments -> NoDup (holeNames segments) ->
  NoDup entries.*1 ->
  (forall key value, (key, value) ∈ entries ->
     key ∈ holeNames segments /\ plainText (stringValue value)) ->
  (forall name, name ∈ holeNames segments -> name ∈ entries.*1) ->
  exists result,
    interpolateParams (render segments) (Some entries) = Normal result
    /\ braceFree result.
Proof.
  intros Hw Hd Hk He Hall. eexists. split.
  - rewrite interpolateParams_reduce. by apply reduce_fills.
  - apply braceFree_render_literals.
    + apply plainSegment_fill; [exact Hw|]. intros name text Hl.
      apply paramTexts_Some in Hl as (value & Hin & ->).
      by destruct (He _ _ Hin) as [_ [Hb _]].
    + rewrite holeNames_fill. apply filter_none. intros name Hin Hl.
      apply paramTexts_None in Hl. by apply Hl, Hall.
Qed.

(** X4. Under the same conditions, the order of the entries does not matter. *)
Theorem interpolateParams_order_irrelevant (segments : list Segment)
  (entries entries' : Params) :
  Forall plainSegment segments -> NoDup (holeNames segments) ->
  NoDup entries.*1 ->
  (forall key value, (key, value) ∈ entries ->
     key ∈ holeNames segments /\ plainText (stringValue value)) ->
  entries ≡ₚ entries' ->
  interpolateParams (render segments) (Some entries)
  = interpolateParams (render segments) (Some entries').
Proof.
  intros Hw Hd Hk He Hp. rewrite !interpolateParams_reduce.
  rewrite (reduce_fills entries), (reduce_fills entries'); try done.
  - by rewrite (paramTexts_Permutation _ _ _ Hk Hp).
  - by rewrite <- Hp.
  - intros key value Hin. apply He. by rewrite Hp.
Qed.

(** X5. On a plain template with distinct holes, the first entry whose key
    names no hole makes interpolation throw, and the message lists the
    holes that the entries before it have not filled. *)
Theorem interpolateParams_first_unknown_key (segments : list Segment)
  (done : Params) (key : string) (value : JsValue) (rest : Params) :
  Forall plainSegment segments -> NoDup (holeNames segments) ->
  NoDup done.*1 ->
  (forall k v, (k, v) ∈ done ->
     k ∈ holeNames segments /\ plainText (stringValue v)) ->
  ~ contains key "}" -> key ∉ holeNames segments ->
  interpolateParams (render segments) (Some (done ++ (key, value) :: rest))
  = Throw (mkError
      (("Parameter " +:+ Js.dquote +:+ key +:+ Js.dquote
          +:+ " was provided but placeholder "
          +:+ Js.dquote +:+ placeholder key +:+ Js.dquote
          +:+ " not found in endpoint template. ")
       +:+ "Available placeholders: "
       +:+ match filter (fun name => name ∉ done.*1) (holeNames segments) with
           | [] => "none"
           | unfilled => Js.join ", " (placeholder <$> unfilled)
           end)).
Proof.
  intros Hw Hd Hk He Hc Hn. rewrite interpolateParams_reduce.
  pose proof (plainSegment_fill (paramTexts done) segments Hw) as Hw'.
  assert (Forall plainSegment (fill (paramTexts done) segments)) as Hplain.
  { apply Hw'. intros name text Hl.
    apply paramTexts_Some in Hl as (v & Hin & ->).
    by destruct (He _ _ Hin) as [_ [Hb _]]. }
  rewrite (reduce_Throw_intro substituteParam done rest (key, value)
             (render segments) (render (fill (paramTexts done) segments))
             (mkError (mismatchMessage
                         (render (fill (paramTexts done) segments)) key))).
  - rewrite mismatchMessage_text. unfold availablePlaceholders.
    rewrite scan_render
      by (eapply Forall_impl; [exact Hplain | apply plainSegment_wellFormed]).
    rewrite holes_holeNames, holeNames_fill.
    rewrite (list_filter_iff _ (fun name => name ∉ done.*1))
      by (intros name; apply paramTexts_None).
    by destruct (filter _ (holeNames segments)).
  - by apply reduce_fills.
  - apply substituteParam_no_hole; [exact Hplain | exact Hc |].
    rewrite holeNames_fill. intros [_ H]%list_elem_of_filter. by apply Hn.
Qed.

(** X6. When the hole of a key stands more than once in a plain template,
    only the first one is filled: the placeholder is still in the
    result. *)
Theorem interpolateParams_fills_first_of_repeated
  (before after : list Segment) (key : string) (value : JsValue) :
  Forall plainSegment (before ++ Hole key :: after) ->
  key ∉ holeNames before -> key ∈ holeNames after ->
  ~ contains (stringValue value) "$" ->
  interpolateParams (render (before ++ Hole key :: after))
    (Some [(key, value)])
  = Normal (render before +:+ stringValue value +:+ render after)
  /\ contains (render before +:+ stringValue value +:+ render after)
       (placeholder key).
Proof.
  intros Hw Hb Ha Hd. split.
  - rewrite interpolateParams_reduce.
    change (reduce substituteParam [(key, value)]
              (render (before ++ Hole key :: after)))
      with (bind (substituteParam (render (before ++ Hole key :: after))
                    (key, value))
              (reduce substituteParam [])).
    rewrite substituteParam_at_hole by done. simpl. by rewrite render_app.
  - destruct (contains_placeholder_of_hole after key Ha) as (pre & post & ->).
    exists (render before +:+ stringValue value +:+ pre), post.
    by rewrite !str_app_assoc.
Qed.

End PlainTemplates.

(** ** Texts of values *)

Lemma charsIn_empty (allowed : list ascii) : charsIn allowed "".
Proof. intros c H. by apply not_contains_empty in H. Qed.

Lemma charsIn_cons (allowed : list ascii) (c : ascii) (s : string) :
  c ∈ allowed -> charsIn allowed s -> charsIn allowed (String c s).
Proof. intros Hc Hs d [<-|H]%contains_char_cons; [exact Hc | by apply Hs]. Qed.

Lemma charsIn_app (allowed : list ascii) (s1 s2 : string) :
  charsIn allowed s1 -> charsIn allowed s2 -> charsIn allowed (s1 +:+ s2).
Proof. intros H1 H2 c [H|H]%contains_char_app; [by apply H1 | by apply H2]. Qed.

Lemma charsIn_not_contains (allowed : list ascii) (s : string) (c : ascii) :
  charsIn allowed s -> c ∉ allowed -> ~ contains s (String c "").
Proof. intros Hs Hc H. by apply Hc, Hs. Qed.

Lemma charsIn_uint (d : Decimal.uint) :
  charsIn numericChars (NilEmpty.string_of_uint d).
Proof.
  induction d; simpl;
    [apply charsIn_empty | apply charsIn_cons; [compute_done | assumption]..].
Qed.

(** The text of a number is made of digits and, at most, a minus sign. *)
Lemma charsIn_number (n : Z) : charsIn numericChars (Js.String_of_number n).
Proof.
  unfold Js.String_of_number, NilZero.string_of_int.
  assert (forall d, charsIn numericChars (NilZero.string_of_uint d)) as H.
  { intros d. pose proof (charsIn_uint d). destruct d; try assumption.
    apply charsIn_cons; [compute_done | apply charsIn_empty]. }
  destruct (Z.to_int n) as [d|d]; [apply H|].
  apply charsIn_cons; [compute_done | apply H].
Qed.

Lemma charsIn_boolean (b : bool) :
  charsIn booleanChars (Js.String_of_boolean b).
Proof.
  destruct b; simpl;
    repeat (apply charsIn_cons; [compute_done|]); apply charsIn_empty.
Qed.

Lemma charsIn_padStart0 (n : nat) (s : string) :
  charsIn numericChars s -> charsIn numericChars (Js.padStart0 n s).
Proof.
  intros Hs. unfold Js.padStart0. apply charsIn_app; [|exact Hs].
  induction (n - String.length s)%nat as [|k IH]; [apply charsIn_empty|].
  destruct k as [|k].
  - apply charsIn_cons; [compute_done | apply charsIn_empty].
  - change (String.concat "" (replicate (S (S k)) "0"))
      with (String "0" (String.concat "" (replicate (S k) "0"))).
    apply charsIn_cons; [compute_done | exact IH].
Qed.

Lemma queryFreeText_charsIn (allowed : list ascii) (text : string) :
  charsIn allowed text ->
  "{"%char ∉ allowed -> "}"%char ∉ allowed -> "$"%char ∉ allowed ->
  "?"%char ∉ allowed ->
  queryFreeText text.
Proof.
  intros H ? ? ? ?. repeat split; by eapply charsIn_not_contains.
Qed.

Lemma queryFreeText_number (n : Z) : queryFreeText (Js.String_of_number n).
Proof.
  apply (queryFreeText_charsIn numericChars);
    [apply charsIn_number | compute_done..].
Qed.

Lemma queryFreeText_boolean (b : bool) :
  queryFreeText (Js.String_of_boolean b).
Proof.
  apply (queryFreeText_charsIn booleanChars);
    [apply charsIn_boolean | compute_done..].
Qed.

(** The modelled date formatter writes digits and dashes, for every
    date. *)
Lemma queryFreeText_jsDateToYyyyMmDd_spec (d : JsDate) :
  queryFreeText (jsDateToYyyyMmDd_spec d).
Proof.
  apply (queryFreeText_charsIn numericChars); [|compute_done..].
  unfold jsDateToYyyyMmDd_spec.
  repeat first
    [ apply charsIn_padStart0 | apply charsIn_number | apply charsIn_empty
    | apply charsIn_cons; [compute_done|] | apply charsIn_app ].
Qed.

(** ** The declarations of the schedule module *)

Lemma braceFreeb_true (s : string) : braceFreeb s = true -> braceFree s.
Proof.
  unfold braceFreeb, braceFree.
  intros [H1 H2]%andb_true_iff. apply negb_true_iff in H1, H2.
  by rewrite <- !includes_false_iff.
Qed.

Lemma plainSegmentb_true (segment : Segment) :
  plainSegmentb segment = true -> plainSegment segment.
Proof.
  destruct segment as [text|name]; simpl; [apply braceFreeb_true|].
  intros [H1 H2]%andb_true_iff. split; [|by apply braceFreeb_true].
  apply negb_true_iff in H1. by apply String.eqb_neq in H1.
Qed.

Lemma queryFreeb_true (segment : Segment) :
  queryFreeb segment = true -> queryFreeSegment segment.
Proof.
  unfold queryFreeSegment.
  destruct segment; simpl; intros H%negb_true_iff;
    by apply includes_false_iff.
Qed.

Lemma wellDeclared_true (endpoint : EndpointDecl) :
  wellDeclared endpoint = true ->
  endpointPath endpoint = render (parseTemplate (endpointPath endpoint))
  /\ Forall plainSegment (parseTemplate (endpointPath endpoint))
  /\ Forall queryFreeSegment (parseTemplate (endpointPath endpoint))
  /\ NoDup (holeNames (parseTemplate (endpointPath endpoint)))
  /\ holeNames (parseTemplate (endpointPath endpoint))
     = paramName <$> endpointParams endpoint.
Proof.
  unfold wellDeclared.
  intros [[[[H1 H2]%andb_true_iff H3]%andb_true_iff H4]%andb_true_iff
            H5]%andb_true_iff.
  apply String.eqb_eq in H1. rewrite forallb_forall in H2, H3.
  apply bool_decide_eq_true in H4, H5.
  repeat split; try done.
  - apply Forall_forall. intros seg Hin%list_elem_of_In.
    by apply plainSegmentb_true, H2.
  - apply Forall_forall. intros seg Hin%list_elem_of_In.
    by apply queryFreeb_true, H3.
Qed.

Lemma scheduleEndpoints_wellDeclared (endpoint : EndpointDecl) :
  endpoint ∈ scheduleEndpoints -> wellDeclared endpoint = true.
Proof.
  assert (forallb wellDeclared scheduleEndpoints = true) as H
    by (vm_compute; reflexivity).
  rewrite forallb_forall in H. intros Hin%list_elem_of_In. by apply H.
Qed.

Lemma queryFree_render (segments : list Segment) :
  Forall queryFreeSegment segments -> ~ contains (render segments) "?".
Proof.
  induction 1 as [|[text|name] rest Hs _ IH]; simpl.
  - apply not_contains_empty.
  - intros [H|H]%contains_char_app; [by apply Hs | by apply IH].
  - intros [H|H]%contains_char_cons; [discriminate H|].
    apply contains_char_app in H as [H|H]; [|by apply IH].
    apply contains_char_app in H as [H|H]; [by apply Hs|].
    apply contains_char_cons in H as [H|H]; [discriminate H|].
    by apply not_contains_empty in H.
Qed.

Lemma queryFreeSegment_fill (values : gmap string string)
  (segments : list Segment) :
  Forall queryFreeSegment segments ->
  (forall name text, values !! name = Some text -> ~ contains text "?") ->
  Forall queryFreeSegment (fill values segments).
Proof.
  intros Hq Hv. unfold fill. apply Forall_fmap.
  eapply Forall_impl; [exact Hq|]. intros [text|name] Hs; simpl; [exact Hs|].
  destruct (values !! name) as [text|] eqn:E; simpl; [|exact Hs].
  unfold queryFreeSegment. simpl. by eapply Hv.
Qed.

Lemma scheduleEndpoint_unfold (jsDateToYyyyMmDd : JsDate -> string)
  (configManager : ConfigManager) (LoggingMode T World : Type)
  (fetchFn : ApiClient LoggingMode T World) (endpoint : EndpointDecl)
  (params : option Params) (logMode : option LoggingMode) (w : World) :
  scheduleEndpoint jsDateToYyyyMmDd configManager LoggingMode T World fetchFn
    endpoint params logMode w
  = match interpolateParams jsDateToYyyyMmDd (endpointPath endpoint) params with
    | Normal path =>
        fetchFn (buildUrl configManager scheduleApiPath path) logMode w
    | Throw e => (Throw e, w)
    end.
Proof.
  unfold scheduleEndpoint, createFetchFactory.
  by destruct (interpolateParams _ _ _).
Qed.

Lemma buildUrl_schedule (configManager : ConfigManager) (path : string) :
  ~ contains path "?" ->
  buildUrl configManager scheduleApiPath path
  = getBaseUrl configManager +:+ scheduleApiPath +:+ path
      +:+ "?apiaccesscode=" +:+ getApiKey configManager.
Proof.
  intros H. apply includes_false_iff in H. unfold buildUrl. by rewrite H.
Qed.

Section ScheduleModule.

Variable jsDateToYyyyMmDd : JsDate -> string.
Variable configManager : ConfigManager.
Variables LoggingMode T World : Type.
Variable fetchFn : ApiClient LoggingMode T World.

#[local] Abbreviation stringValue := (stringValue jsDateToYyyyMmDd).
#[local] Abbreviation paramTexts := (paramTexts jsDateToYyyyMmDd).
#[local] Abbreviation scheduleEndpoint :=
  (scheduleEndpoint jsDateToYyyyMmDd configManager LoggingMode T World
     fetchFn).

(** The URL of the schedule API for an interpolated path without query. *)
#[local] Abbreviation scheduleUrl path :=
  (getBaseUrl configManager +:+ scheduleApiPath +:+ path
     +:+ "?apiaccesscode=" +:+ getApiKey configManager).

Lemma scheduleEndpoint_call (endpoint : EndpointDecl) (entries : Params)
  (logMode : option LoggingMode) (w : World) :
  endpoint ∈ scheduleEndpoints -> NoDup entries.*1 ->
  (forall key, key ∈ entries.*1 ->
     key ∈ paramName <$> endpointParams endpoint) ->
  (forall key value, (key, value) ∈ entries ->
     queryFreeText (stringValue value)) ->
  scheduleEndpoint endpoint (Some entries) logMode w
  = fetchFn
      (scheduleUrl
         (render (fill (paramTexts entries)
                    (parseTemplate (endpointPath endpoint)))))
      logMode w.
Proof.
  intros Hin Hk Hdecl Htext.
  destruct (wellDeclared_true _ (scheduleEndpoints_wellDeclared _ Hin))
    as (Hpath & Hplain & Hquery & Hdistinct & Hnames).
  rewrite scheduleEndpoint_unfold.
  set (segments := parseTemplate (endpointPath endpoint)) in *.
  rewrite Hpath, interpolateParams_reduce, reduce_fills; try done.
  - rewrite buildUrl_schedule; [reflexivity|].
    apply queryFree_render, queryFreeSegment_fill; [exact Hquery|].
    intros name text Hl. apply paramTexts_Some in Hl as (value & Hv & ->).
    by destruct (Htext _ _ Hv).
  - intros key value Hv. split; [|by destruct (Htext _ _ Hv)].
    rewrite Hnames. apply Hdecl, list_elem_of_fmap. by exists (key, value).
Qed.

(** The text of a value has neither brace, dollar sign nor question mark,
    provided the formatter and the string values have none. *)
Lemma queryFreeText_stringValue (entries : Params) :
  (forall d, queryFreeText (jsDateToYyyyMmDd d)) ->
  (forall key s, (key, VString s) ∈ entries -> queryFreeText s) ->
  forall key value, (key, value) ∈ entries ->
    queryFreeText (stringValue value).
Proof.
  intros Hfmt Hs key [s|n|b|d] Hin; simpl.
  - by eapply Hs.
  - apply queryFreeText_number.
  - apply queryFreeText_boolean.
  - apply Hfmt.
Qed.

(** X7. Every endpoint function of the schedule module, called with a
    parameter object whose keys are declared parameters of the endpoint,
    throws nothing and calls the client once, with the URL made of the
    base URL, the schedule API path, the template with the supplied holes
    filled, and the key under [apiaccesscode] after a question mark.
    Dates are formatted, and string values given, without brace, dollar
    sign or question mark. When every declared parameter is supplied the
    URL path has no brace left. *)
Theorem scheduleEndpoint_requests (endpoint : EndpointDecl)
  (entries : Params) (logMode : option LoggingMode) (w : World) :
  (forall d, queryFreeText (jsDateToYyyyMmDd d)) ->
  endpoint ∈ scheduleEndpoints -> NoDup entries.*1 ->
  (forall key, key ∈ entries.*1 ->
     key ∈ paramName <$> endpointParams endpoint) ->
  (forall key s, (key, VString s) ∈ entries -> queryFreeText s) ->
  let path := render (fill (paramTexts entries)
                        (parseTemplate (endpointPath endpoint))) in
  scheduleEndpoint endpoint (Some entries) logMode w
  = fetchFn (scheduleUrl path) logMode w
  /\ ((forall decl, decl ∈ endpointParams endpoint ->
         paramName decl ∈ entries.*1) ->
      braceFree path).
Proof.
  intros Hfmt Hin Hk Hdecl Hs path.
  pose proof (queryFreeText_stringValue entries Hfmt Hs) as Htext.
  split; [by apply scheduleEndpoint_call|].
  intros Hall.
  destruct (wellDeclared_true _ (scheduleEndpoints_wellDeclared _ Hin))
    as (_ & Hplain & _ & _ & Hnames).
  apply braceFree_render_literals.
  - apply plainSegment_fill; [exact Hplain|]. intros name text Hl.
    apply paramTexts_Some in Hl as (value & Hv & ->).
    by destruct (Htext _ _ Hv) as [[Hb _] _].
  - rewrite holeNames_fill. apply filter_none. intros name Hname Hl.
    apply paramTexts_None in Hl. apply Hl. rewrite Hnames in Hname.
    apply list_elem_of_fmap in Hname as (decl & -> & Hd). by apply Hall.
Qed.

(** X8. The two endpoints with the optional [onlyRemainingTimes], called
    without it: the call does not throw, and the requested URL carries the
    placeholder itself. *)
Theorem scheduleToday_without_onlyRemainingTimes
  (routeId departingTerminalId arrivingTerminalId : Z)
  (logMode : option LoggingMode) (w : World) :
  scheduleEndpoint getScheduleTodayByRoute
    (Some [("routeId", VNumber routeId)]) logMode w
  = fetchFn
      (scheduleUrl
         ("/scheduletoday/" +:+ Js.String_of_number routeId
            +:+ "/{onlyRemainingTimes}"))
      logMode w
  /\ scheduleEndpoint getScheduleTodayByTerminals
       (Some [("departingTerminalId", VNumber departingTerminalId);
              ("arrivingTerminalId", VNumber arrivingTerminalId)])
       logMode w
     = fetchFn
         (scheduleUrl
            ("/scheduletoday/" +:+ Js.String_of_number departingTerminalId
               +:+ "/" +:+ Js.String_of_number arrivingTerminalId
               +:+ "/{onlyRemainingTimes}"))
         logMode w.
Proof.
  split.
  - rewrite scheduleEndpoint_call.
    + reflexivity.
    + repeat constructor.
    + compute_done.
    + intros key Hin. compute in Hin. compute.
      apply list_elem_of_singleton in Hin as ->. repeat constructor.
    + intros key value [= -> ->]%list_elem_of_singleton.
      apply queryFreeText_number.
  - rewrite scheduleEndpoint_call.
    + reflexivity.
    + repeat constructor.
    + compute_done.
    + intros key Hin. compute in Hin. compute.
      apply elem_of_cons in Hin as [->|Hin]; [repeat constructor|].
      apply list_elem_of_singleton in Hin as ->. repeat constructor.
    + intros key value [[= -> ->]|[= -> ->]%list_elem_of_singleton]%elem_of_cons;
        apply queryFreeText_number.
Qed.

End ScheduleModule.

(** * More on the URL builder, the selector and the factory *)

Lemma str_app_inj_length (a b x y : string) :
  a +:+ x = b +:+ y -> String.length a = String.length b -> a = b /\ x = y.
Proof.
  revert b. induction a as [|c a IH]; intros [|d b] E Hl; try discriminate Hl.
  - by split.
  - simpl in E, Hl. injection E as -> E. injection Hl as Hl.
    by destruct (IH _ E Hl) as [-> ->].
Qed.

(** X9. With one configuration and one API path, two endpoints that differ
    give two URLs that differ: the URL tells the endpoint. *)
Theorem buildUrl_distinct (configManager : ConfigManager)
  (apiPath endpoint1 endpoint2 : string) :
  endpoint1 <> endpoint2 ->
  buildUrl configManager apiPath endpoint1
  <> buildUrl configManager apiPath endpoint2.
Proof.
  intros Hne E. apply Hne. unfold buildUrl in E.
  do 2 apply (inj (String.app _)) in E.
  apply str_app_inj_length in E as [E _]; [exact E|].
  apply (f_equal String.length) in E. rewrite !str_length_app in E.
  destruct (Js.includes endpoint1 "?"), (Js.includes endpoint2 "?");
    simpl in E; lia.
Qed.

(** X10. The JSONP strategy is selected exactly when [FORCE_JSONP] is ["true"],
    or when no test signal is present and both [window] and [document]
    exist; the native strategy in every other environment. The default
    branch of the [switch] is never taken. *)
Theorem selectFetchStrategy_jsonp_iff (g : Globals) :
  (selectFetchStrategy g = fetchJsonp
   <-> forceJsonp g \/ (~ testSignal g /\ browserGlobals g))
  /\ (selectFetchStrategy g = fetchNative
      <-> ~ forceJsonp g /\ (testSignal g \/ ~ browserGlobals g))
  /\ (getEnvironmentType g = "test" \/ getEnvironmentType g = "web"
      \/ getEnvironmentType g = "server").
Proof.
  unfold selectFetchStrategy, getEnvironmentType.
  pose proof (forceJsonp_iff g) as Hf.
  pose proof (isTestEnvironment_iff g) as Ht.
  pose proof (isWebEnvironment_iff g) as Hw.
  destruct (match process g with
            | Some p => bool_decide (env p !! "FORCE_JSONP" = Some "true")
            | None => false
            end), (isTestEnvironment g), (isWebEnvironment g);
    simpl; (split; [|split]); try tauto;
    split; try discriminate; try tauto; intuition congruence.
Qed.

Lemma contains_middle (before s after pat : string) :
  contains s pat -> contains (before +:+ s +:+ after) pat.
Proof.
  intros (pre & post & ->). exists (before +:+ pre), (post +:+ after).
  by rewrite !str_app_assoc.
Qed.

(** X11. A value is put into the URL as it is: when its text has a question
    mark, the endpoint has one, and the API key is appended after [&]
    although the template has no query. *)
Theorem createFetchFactory_value_not_encoded
  (jsDateToYyyyMmDd : JsDate -> string) (configManager : ConfigManager)
  (LoggingMode T World : Type) (fetchFn : ApiClient LoggingMode T World)
  (apiPath template pre post key : string) (value : JsValue)
  (logMode : option LoggingMode) (w : World) :
  firstOccurrence template pre (placeholder key) post ->
  ~ contains (stringValue jsDateToYyyyMmDd value) "$" ->
  contains (stringValue jsDateToYyyyMmDd value) "?" ->
  createFetchFactory jsDateToYyyyMmDd configManager LoggingMode T World
    fetchFn apiPath template (Some [(key, value)]) logMode w
  = fetchFn
      (getBaseUrl configManager +:+ apiPath
         +:+ (pre +:+ stringValue jsDateToYyyyMmDd value +:+ post)
         +:+ "&" +:+ getApiKeyParam apiPath +:+ "="
         +:+ getApiKey configManager)
      logMode w.
Proof.
  intros Hf Hd Hq. unfold createFetchFactory.
  rewrite interpolateParams_reduce.
  change (reduce (substituteParam jsDateToYyyyMmDd) [(key, value)] template)
    with (bind (substituteParam jsDateToYyyyMmDd template (key, value))
            (reduce (substituteParam jsDateToYyyyMmDd) [])).
  rewrite (substituteParam_literal _ _ pre post) by done. simpl.
  unfold buildUrl.
  assert (Js.includes (pre +:+ stringValue jsDateToYyyyMmDd value +:+ post)
            "?" = true) as ->; [|reflexivity].
  by apply includes_true_iff, contains_middle.
Qed.

(** X12. Setting [FORCE_JSONP] does not change the environment type. Set to
    ["true"] (in a runtime that has a [process]) it selects JSONP; set to
    any other value, such as ["1"] or ["TRUE"], it forces nothing and the
    strategy is the one of the environment type. *)
Theorem force_jsonp_is_exact (g : Globals) (value : string) :
  getEnvironmentType (setEnv "FORCE_JSONP" value g) = getEnvironmentType g
  /\ (is_Some (process g) ->
      selectFetchStrategy (setEnv "FORCE_JSONP" "true" g) = fetchJsonp)
  /\ (value <> "true" ->
      selectFetchStrategy (setEnv "FORCE_JSONP" value g)
      = strategyOfEnvironment (getEnvironmentType g)).
Proof.
  assert (forall v, getEnvironmentType (setEnv "FORCE_JSONP" v g)
                    = getEnvironmentType g) as Henv.
  { intros v. unfold getEnvironmentType, isTestEnvironment, isWebEnvironment.
    destruct g as [[p|] w d]; simpl; [|reflexivity].
    by rewrite !lookup_insert_ne. }
  split; [apply Henv|]. split.
  - intros [p Hp]. unfold selectFetchStrategy. destruct g as [pr w d].
    simpl in *. subst pr. simpl. by rewrite lookup_insert_eq.
  - intros Hv. unfold selectFetchStrategy. rewrite Henv.
    destruct g as [[p|] w d]; simpl; [|reflexivity].
    rewrite lookup_insert_eq.
    rewrite bool_decide_eq_false_2; [reflexivity | congruence].
Qed.

(** * Further instances *)

Lemma Forall_plainSegmentb (segments : list Segment) :
  forallb plainSegmentb segments = true -> Forall plainSegment segments.
Proof.
  rewrite forallb_forall. intros H. apply Forall_forall.
  intros segment Hin%list_elem_of_In. by apply plainSegmentb_true, H.
Qed.

Lemma scheduleByRoute_holes (entries : Params) :
  entries ⊆ scheduleByRouteParams ->
  forall key value, (key, value) ∈ entries ->
    key ∈ holeNames scheduleByRouteSegments
    /\ plainText (stringValue jsDateToYyyyMmDd_spec value).
Proof.
  intros Hsub key value Hin. apply Hsub in Hin.
  apply elem_of_cons in Hin as [[= -> ->]|Hin].
  - split; [compute_done | apply queryFreeText_jsDateToYyyyMmDd_spec].
  - apply list_elem_of_singleton in Hin as [= -> ->].
    split; [compute_done | apply queryFreeText_number].
Qed.

(** Filling [/schedule/{tripDate}/{routeId}]. *)
Lemma interpolateParams_fills_holes_witness :
  interpolateParams jsDateToYyyyMmDd_spec (render scheduleByRouteSegments)
    (Some scheduleByRouteParams)
  = Normal "/schedule/2024-01-15/5".
Proof.
  apply (interpolateParams_fills_holes jsDateToYyyyMmDd_spec
           scheduleByRouteSegments scheduleByRouteParams).
  - apply Forall_plainSegmentb. vm_compute; reflexivity.
  - compute_done.
  - compute_done.
  - by apply scheduleByRoute_holes.
Defined.

(** With the route only, the placeholder of the trip date stays. *)
Lemma interpolateParams_keeps_unsupplied_hole_witness :
  exists result,
    interpolateParams jsDateToYyyyMmDd_spec (render scheduleByRouteSegments)
      (Some [("routeId", VNumber 5)])
    = Normal result
    /\ contains result (placeholder "tripDate").
Proof.
  apply (interpolateParams_keeps_unsupplied_hole jsDateToYyyyMmDd_spec
           scheduleByRouteSegments [("routeId", VNumber 5)] "tripDate").
  - apply Forall_plainSegmentb. vm_compute; reflexivity.
  - compute_done.
  - compute_done.
  - apply scheduleByRoute_holes. intros x ->%list_elem_of_singleton.
    repeat constructor.
  - compute_done.
  - compute_done.
Defined.

(** With both parameters no brace is left. *)
Lemma interpolateParams_complete_no_brace_witness :
  exists result,
    interpolateParams jsDateToYyyyMmDd_spec (render scheduleByRouteSegments)
      (Some scheduleByRouteParams)
    = Normal result
    /\ braceFree result.
Proof.
  apply (interpolateParams_complete_no_brace jsDateToYyyyMmDd_spec
           scheduleByRouteSegments scheduleByRouteParams).
  - apply Forall_plainSegmentb. vm_compute; reflexivity.
  - compute_done.
  - compute_done.
  - by apply scheduleByRoute_holes.
  - intros name Hin. compute in Hin.
    apply elem_of_cons in Hin as [->|Hin]; [compute_done|].
    apply list_elem_of_singleton in Hin as ->. compute_done.
Defined.

(** The route first or the trip date first: the same result. *)
Lemma interpolateParams_order_irrelevant_witness :
  interpolateParams jsDateToYyyyMmDd_spec (render scheduleByRouteSegments)
    (Some [("tripDate", VDate (mkDate 2024 0 15)); ("routeId", VNumber 5)])
  = interpolateParams jsDateToYyyyMmDd_spec (render scheduleByRouteSegments)
      (Some [("routeId", VNumber 5); ("tripDate", VDate (mkDate 2024 0 15))]).
Proof.
  apply (interpolateParams_order_irrelevant jsDateToYyyyMmDd_spec
           scheduleByRouteSegments scheduleByRouteParams).
  - apply Forall_plainSegmentb. vm_compute; reflexivity.
  - compute_done.
  - compute_done.
  - by apply scheduleByRoute_holes.
  - apply perm_swap.
Defined.

(** A [page] that the template does not have, after the trip date. *)
Lemma interpolateParams_first_unknown_key_witness :
  interpolateParams jsDateToYyyyMmDd_spec (render scheduleByRouteSegments)
    (Some ([("tripDate", VDate (mkDate 2024 0 15))]
             ++ ("page", VNumber 2) :: [("routeId", VNumber 5)]))
  = Throw (mkError
      ("Parameter " +:+ Js.dquote +:+ "page" +:+ Js.dquote
         +:+ " was provided but placeholder "
         +:+ Js.dquote +:+ "{page}" +:+ Js.dquote
         +:+ " not found in endpoint template. "
         +:+ "Available placeholders: {routeId}")).
Proof.
  apply (interpolateParams_first_unknown_key jsDateToYyyyMmDd_spec
           scheduleByRouteSegments [("tripDate", VDate (mkDate 2024 0 15))]
           "page" (VNumber 2) [("routeId", VNumber 5)]).
  - apply Forall_plainSegmentb. vm_compute; reflexivity.
  - compute_done.
  - compute_done.
  - apply scheduleByRoute_holes. intros x ->%list_elem_of_singleton.
    apply elem_of_cons. by left.
  - intros H. apply includes_true_iff in H. vm_compute in H. discriminate H.
  - compute_done.
Defined.

(** [/compare/{id}/{id}] with [id] = 7. *)
Lemma interpolateParams_fills_first_of_repeated_witness :
  interpolateParams jsDateToYyyyMmDd_spec
    (render (compareBefore ++ Hole "id" :: compareAfter))
    (Some [("id", VNumber 7)])
  = Normal "/compare/7/{id}"
  /\ contains "/compare/7/{id}" (placeholder "id").
Proof.
  apply (interpolateParams_fills_first_of_repeated jsDateToYyyyMmDd_spec
           compareBefore compareAfter "id" (VNumber 7)).
  - apply Forall_plainSegmentb. vm_compute; reflexivity.
  - compute_done.
  - compute_done.
  - apply queryFreeText_number.
Defined.

(** [getScheduleTodayByRoute] with both parameters, over the recording
    client. *)
Lemma scheduleEndpoint_requests_witness :
  scheduleEndpoint jsDateToYyyyMmDd_spec exampleConfig unit unit (list string)
    recordingClient getScheduleTodayByRoute
    (Some [("routeId", VNumber 5); ("onlyRemainingTimes", VBoolean true)])
    None []
  = (Normal (Fulfilled tt),
     ["https://www.wsdot.wa.gov/ferries/api/schedule/rest/scheduletoday/5/true?apiaccesscode=KEY"])
  /\ braceFree "/scheduletoday/5/true".
Proof.
  assert (forall key,
            key ∈ [("routeId", VNumber 5);
                   ("onlyRemainingTimes", VBoolean true)].*1 ->
            key ∈ paramName <$> endpointParams getScheduleTodayByRoute) as Hk
    by (by intros key H).
  destruct (scheduleEndpoint_requests jsDateToYyyyMmDd_spec exampleConfig
              unit unit (list string) recordingClient getScheduleTodayByRoute
              [("routeId", VNumber 5); ("onlyRemainingTimes", VBoolean true)]
              None [] queryFreeText_jsDateToYyyyMmDd_spec)
    as [Hcall Hbrace].
  - repeat constructor.
  - compute_done.
  - exact Hk.
  - intros key s Hin. exfalso.
    apply elem_of_cons in Hin as [[=]|Hin%list_elem_of_singleton];
      discriminate Hin.
  - split; [exact Hcall|]. apply Hbrace.
    intros decl Hin. compute in Hin.
    apply elem_of_cons in Hin as [->|Hin]; [compute_done|].
    apply list_elem_of_singleton in Hin as ->. compute_done.
Defined.

(** Two routes, two URLs. *)
Lemma buildUrl_distinct_witness :
  buildUrl exampleConfig scheduleApiPath "/routes/2024-01-15"
  <> buildUrl exampleConfig scheduleApiPath "/routes/2024-01-16".
Proof.
  apply (buildUrl_distinct exampleConfig scheduleApiPath). discriminate.
Defined.

(** A subject name with a question mark. *)
Lemma createFetchFactory_value_not_encoded_witness :
  createFetchFactory jsDateToYyyyMmDd_spec exampleConfig unit unit
    (list string) recordingClient scheduleApiPath
    "/alternativeformats/{subjectName}"
    (Some [("subjectName", VString "a?b")]) None []
  = (Normal (Fulfilled tt),
     ["https://www.wsdot.wa.gov/ferries/api/schedule/rest/alternativeformats/a?b&apiaccesscode=KEY"]).
Proof.
  apply (createFetchFactory_value_not_encoded jsDateToYyyyMmDd_spec
           exampleConfig unit unit (list string) recordingClient
           scheduleApiPath "/alternativeformats/{subjectName}"
           "/alternativeformats/" "" "subjectName" (VString "a?b") None []).
  - apply occursOnce_firstOccurrence. split; [reflexivity|].
    intros pre' post' E. unfold placeholder in E.
    do 34 (destruct pre' as [|? pre']; [by simplify_eq/=|]).
    by simplify_eq/=.
  - intros H. apply includes_true_iff in H. vm_compute in H. discriminate H.
  - by exists "a", "b".
Defined.

(** A test worker with [FORCE_JSONP] set to ["true"], and to ["1"]. *)
Lemma force_jsonp_is_exact_witness :
  selectFetchStrategy (setEnv "FORCE_JSONP" "true" testWorker) = fetchJsonp
  /\ selectFetchStrategy (setEnv "FORCE_JSONP" "1" testWorker) = fetchNative.
Proof.
  split.
  - apply (proj1 (proj2 (force_jsonp_is_exact testWorker "true"))).
    by eexists.
  - rewrite (proj2 (proj2 (force_jsonp_is_exact testWorker "1")));
      [vm_compute; reflexivity | discriminate].
Defined.
